(** * Flash-checkpoint engine of DLRover: a shallow embedding

    The development follows
    [dlrover/trainer/torch/flash_checkpoint/engine.py]: the two collective
    helpers [check_all_rank_ready] and [verify_all_rank_step_consistent],
    and the methods of the abstract class [CheckpointEngine].

    Python objects shared between processes (the lock, the shared-memory
    region, the queues) live in a [World]; every primitive operation on
    them appends an [Effect] to the world's trace, so that the order of
    the operations of a call can be stated.  A method of the engine is a
    computation over a [Process] (the engine object together with the
    world) which either returns a value or raises a Python exception; the
    state reached when the exception is raised is kept. *)

From Stdlib Require Import ZArith List Bool Lia Ascii.
From stdpp Require Import base gmap strings pretty list.
Import ListNotations.

Local Open Scope Z_scope.

(** ** Data imported from [ckpt_saver] *)

(** Names declared in [dlrover.python.elastic_agent.torch.ckpt_saver],
    whose text is not part of the engine module: they are parameters of
    the development. *)
Class CkptSaverNames := {
  DLROVER_CKPT_CONFIG_KEY : string;
  SAVE_STEP_QNAME : string;
  SHM_LOCK_NAME : string
}.

(** A tensor of a state dict is opaque to the engine; integers stand for
    its content. *)
Definition Tensor := list Z.

(** A state dict is a Python [dict] from names to tensors. *)
Abbreviation StateDict := (gmap string Tensor).

(** Modelled from the spec: [CheckpointShardConfig] (declared in
    [ckpt_saver]) is the ShardConfig [{step, path}]; its default value has
    step 0, which means that nothing is staged. *)
Record CheckpointShardConfig := {
  step : Z;
  path : string
}.

Definition default_CheckpointShardConfig : CheckpointShardConfig :=
  {| step := 0; path := "" |}.

(** [SingleFileCheckpointConfig(step=step, path=path)] *)
Definition SingleFileCheckpointConfig (s : Z) (p : string)
  : CheckpointShardConfig :=
  {| step := s; path := p |}.

(** Modelled from the spec: the event kinds carried by the Event Channel. *)
Inductive CheckpointEventType :=
| UPDATE_SHARD
| SAVE_TO_STORAGE.

Record CheckpointEvent := {
  type : CheckpointEventType;
  global_shard_num : Z
}.

(** The class returned by [get_saver_class]: [__module__] and [__name__]. *)
Record SaverClass := {
  __module__ : string;
  __name__ : string
}.

Record SaverInitArgs := {
  arg_checkpoint_dir : string;
  arg_local_shard_num : Z;
  arg_global_shard_num : Z
}.

Record SaverClassMeta := {
  module_path : string;
  class_name : string;
  init_args : SaverInitArgs
}.

Inductive Message :=
| MsgClassMeta (m : SaverClassMeta)
| MsgEvent (e : CheckpointEvent).

(** ** Numbers of the tensors *)

(** A 64-bit signed integer, as held by a tensor of dtype [torch.int64]. *)
Definition wrap64 (z : Z) : Z := (z + 2 ^ 63) mod 2 ^ 64 - 2 ^ 63.

(** Rounding of an integer to [p] significant bits, ties to even: the
    conversion of an integer to a binary floating-point format with a
    [p]-bit significand, before the range check. *)
Definition round_half_even (p n : Z) : Z :=
  let a := Z.abs n in
  let e := Z.log2 a + 1 - p in
  if e <=? 0 then n
  else
    let q := Z.shiftr a e in
    let r := Z.land a (Z.ones e) in
    let half := Z.shiftl 1 (e - 1) in
    let q' := if (half <? r) || ((r =? half) && Z.odd q) then q + 1 else q in
    Z.sgn n * Z.shiftl q' e.

(** An element of a tensor of dtype [torch.float32] that was made from an
    integer: an integral value, or an infinity. *)
Inductive Float32 :=
| Finite (v : Z)
| Infinite (negative : bool).

Definition Float32_eqb (a b : Float32) : bool :=
  match a, b with
  | Finite x, Finite y => x =? y
  | Infinite s, Infinite t => Bool.eqb s t
  | _, _ => false
  end.

(** Python exceptions raised by the modelled code. *)
Inductive Exception :=
| ValueError (msg : string)
| AttributeError
| ZeroDivisionError
| OverflowError.

(** [float(step)] for an [int]: the nearest double, ties to even;
    [OverflowError] beyond the range of a double. *)
Definition py_float (n : Z) : Exception + Z :=
  let d := round_half_even 53 n in
  if Z.abs d <? 2 ^ 1024 then inr d else inl OverflowError.

(** The element of [torch.Tensor([d])] for a double [d] with an integral
    value: the nearest float32, ties to even; an infinity beyond the
    range of a float32. *)
Definition to_float32 (d : Z) : Float32 :=
  let f := round_half_even 24 d in
  if Z.abs f <? 2 ^ 128 then Finite f else Infinite (d <? 0).

(** ** The world shared by the processes *)

(** A process group, seen from one member: its size and the rank of this
    process in it. *)
Record ProcessGroup := {
  pg_rank : nat;
  pg_size : nat
}.

(** Modelled from the spec: the Shared Staging Region (the segment behind
    [SharedMemoryHandler], declared in [ckpt_saver]): the config of the
    staged checkpoint, absent while nothing was written, and the payload. *)
Record Region := {
  region_config : option CheckpointShardConfig;
  region_state : StateDict
}.

Inductive Effect :=
| LockAcquire (name : string) (acquired : bool)
| LockRelease (name : string)
| ShmSave (shard : Z) (conf : CheckpointShardConfig) (state_dict : StateDict)
| ShmGetConfig (shard : Z)
| ShmLoad (shard : Z)
| ShmClose (shard : Z)
| QueuePut (name : string) (msg : Message)
| QueueUnlink (name : string)
| AllReduce (group : ProcessGroup) (value : Z)
| AllGather (group : ProcessGroup) (value : Float32)
| Barrier (group : option ProcessGroup).

(** The state outside the engine object.
    - [dist_is_initialized], [dist_get_rank]: the state of
      [torch.distributed] in this process;
    - [locks]: for every lock name, whether the lock is held;
    - [regions]: the shared-memory region of every local shard;
    - [queues]: the content of every named queue, oldest first;
    - [peer_int64], [peer_float32]: what the member of the group with a
      given rank contributes to the next collective call on an int64 and
      on a float32 tensor;
    - [trace]: the operations performed so far, oldest first. *)
Record World := {
  dist_is_initialized : bool;
  dist_get_rank : Z;
  locks : string -> bool;
  regions : Z -> Region;
  queues : string -> list Message;
  peer_int64 : nat -> Z;
  peer_float32 : nat -> Float32;
  trace : list Effect
}.

Definition emit (e : Effect) (w : World) : World :=
  {| dist_is_initialized := dist_is_initialized w;
     dist_get_rank := dist_get_rank w;
     locks := locks w;
     regions := regions w;
     queues := queues w;
     peer_int64 := peer_int64 w;
     peer_float32 := peer_float32 w;
     trace := trace w ++ [e] |}.

Definition set_lock (name : string) (held : bool) (w : World) : World :=
  {| dist_is_initialized := dist_is_initialized w;
     dist_get_rank := dist_get_rank w;
     locks := fun n => if String.eqb n name then held else locks w n;
     regions := regions w;
     queues := queues w;
     peer_int64 := peer_int64 w;
     peer_float32 := peer_float32 w;
     trace := trace w |}.

Definition set_region (shard : Z) (r : Region) (w : World) : World :=
  {| dist_is_initialized := dist_is_initialized w;
     dist_get_rank := dist_get_rank w;
     locks := locks w;
     regions := fun i => if i =? shard then r else regions w i;
     queues := queues w;
     peer_int64 := peer_int64 w;
     peer_float32 := peer_float32 w;
     trace := trace w |}.

Definition push_queue (name : string) (m : Message) (w : World) : World :=
  {| dist_is_initialized := dist_is_initialized w;
     dist_get_rank := dist_get_rank w;
     locks := locks w;
     regions := regions w;
     queues := fun n => if String.eqb n name then queues w n ++ [m]
                        else queues w n;
     peer_int64 := peer_int64 w;
     peer_float32 := peer_float32 w;
     trace := trace w |}.

(** ** Computations that may raise *)

(** A computation over a state [S]: the value returned or the exception
    raised, and the state reached. *)
Definition M (S A : Type) : Type := S -> (Exception + A) * S.

Definition ret {S A} (a : A) : M S A := fun s => (inr a, s).

Definition raise {S A} (e : Exception) : M S A := fun s => (inl e, s).

Definition bind {S A B} (c : M S A) (k : A -> M S B) : M S B :=
  fun s =>
    match c s with
    | (inr a, s') => k a s'
    | (inl e, s') => (inl e, s')
    end.

Notation "x <- c1 ;; c2" := (bind c1 (fun x => c2))
  (at level 100, c1 at next level, right associativity).
Notation "c1 ;; c2" := (bind c1 (fun _ => c2))
  (at level 100, right associativity).

(** A pure Python expression that may raise, as a computation. *)
Definition of_result {S A} (r : Exception + A) : M S A := fun s => (r, s).

(** ** Primitive operations *)

(** Modelled from the spec: [SharedLock] (declared in
    [dlrover.python.common.multi_process]).  [acquire(blocking=False)]
    returns false when the lock is already held and takes it otherwise;
    [release()] frees the lock whoever holds it. *)
Definition SharedLock_acquire (name : string) : M World bool :=
  fun w =>
    if locks w name then (inr false, emit (LockAcquire name false) w)
    else (inr true, emit (LockAcquire name true) (set_lock name true w)).

Definition SharedLock_release (name : string) : M World unit :=
  fun w => (inr tt, emit (LockRelease name) (set_lock name false w)).

(** Modelled from the spec: [SharedMemoryHandler] (declared in
    [ckpt_saver]).  [save_state_dict] overwrites header and payload as one
    unit; [get_checkpoint_config] reads the header, or gives the default
    when there is none; [load_state_dict] returns the payload. *)
Definition SharedMemoryHandler_save_state_dict
    (shard : Z) (state_dict : StateDict) (conf : CheckpointShardConfig)
  : M World unit :=
  fun w =>
    (inr tt,
     emit (ShmSave shard conf state_dict)
       (set_region shard
          {| region_config := Some conf; region_state := state_dict |} w)).

Definition SharedMemoryHandler_get_checkpoint_config
    (shard : Z) (default_config : CheckpointShardConfig)
  : M World CheckpointShardConfig :=
  fun w =>
    (inr (match region_config (regions w shard) with
          | Some c => c
          | None => default_config
          end),
     emit (ShmGetConfig shard) w).

Definition SharedMemoryHandler_load_state_dict (shard : Z)
  : M World StateDict :=
  fun w => (inr (region_state (regions w shard)), emit (ShmLoad shard) w).

Definition SharedMemoryHandler_close (shard : Z) : M World unit :=
  fun w => (inr tt, emit (ShmClose shard) w).

(** Modelled from the spec: [SharedQueue] (declared in
    [dlrover.python.common.multi_process]), a named FIFO channel. *)
Definition SharedQueue_put (name : string) (m : Message) : M World unit :=
  fun w => (inr tt, emit (QueuePut name m) (push_queue name m w)).

Definition SharedQueue_unlink (name : string) : M World unit :=
  fun w => (inr tt, emit (QueueUnlink name) w).

(** The tensors that the members of [g] bring to a collective call, in
    the order of their ranks: this process brings [own], the member of
    rank [i] brings [peers i]. *)
Definition contributions {T} (g : ProcessGroup) (own : T) (peers : nat -> T)
  : list T :=
  map (fun i => if Nat.eqb i (pg_rank g) then own else peers i)
      (seq 0 (pg_size g)).

(** The sum of integers, without bound. *)
Definition Zsum (ts : list Z) : Z := fold_right Z.add 0 ts.

Definition sum_int64 (ts : list Z) : Z :=
  fold_left (fun acc t => wrap64 (acc + t)) ts 0.

(** [dist.all_reduce(t, group=group)] on a one-element int64 tensor: the
    sum (the default reduction) of the contributions, in 64 bits. *)
Definition dist_all_reduce (g : ProcessGroup) (t : Z) : M World Z :=
  fun w =>
    (inr (sum_int64 (contributions g t (peer_int64 w))),
     emit (AllReduce g t) w).

(** [dist.all_gather(outputs, t, group=group)]: [outputs] receives the
    tensor of every member. *)
Definition dist_all_gather (g : ProcessGroup) (t : Float32)
  : M World (list Float32) :=
  fun w =>
    (inr (contributions g t (peer_float32 w)), emit (AllGather g t) w).

Definition dist_barrier (group : option ProcessGroup) : M World unit :=
  fun w => (inr tt, emit (Barrier group) w).

(** ** The collective helpers *)

(** [check_all_rank_ready(group, ready)]; the truth value of the
    one-element tensor [t == 0] is returned as a boolean. *)
Definition check_all_rank_ready (group : option ProcessGroup) (ready : bool)
  : M World bool :=
  match group with
  | None => ret ready
  | Some g =>
      let value := if ready then 0 else 1 in
      t <- dist_all_reduce g value ;;
      ret (t =? 0)
  end.

(** The loop [for step in outputs] of [verify_all_rank_step_consistent],
    with [first] for [outputs[0]]. *)
Fixpoint all_equal_to (first : Float32) (outputs : list Float32) : bool :=
  match outputs with
  | [] => true
  | s :: rest =>
      if negb (Float32_eqb s first) then false else all_equal_to first rest
  end.

(** [torch.Tensor([float(step)])]: a one-element tensor of the default
    dtype, float32. *)
Definition tensor_of_step (step : Z) : Exception + Float32 :=
  match py_float step with
  | inr d => inr (to_float32 d)
  | inl e => inl e
  end.

(** [verify_all_rank_step_consistent(group, step)]; [torch.equal] on two
    one-element tensors compares their elements. *)
Definition verify_all_rank_step_consistent
    (group : option ProcessGroup) (step : Z) : M World bool :=
  match group with
  | None => ret true
  | Some g =>
      t <- of_result (tensor_of_step step) ;;
      outputs <- dist_all_gather g t ;;
      ret (match outputs with
           | [] => true
           | first :: _ => all_equal_to first outputs
           end)
  end.

(** ** The engine *)

(** The abstract methods of [CheckpointEngine] that the constructor
    calls; a concrete engine gives them. *)
Class CheckpointEngineImpl := {
  get_saver_class : SaverClass;
  get_local_shard_num : Z;
  get_global_shard_num : Z
}.

(** The attributes of a [CheckpointEngine].  The lock, the handler and the
    queue are shared objects: the attribute holds the name (or the shard)
    the object is bound to, the object itself is in the [World]. *)
Record CheckpointEngine := {
  checkpoint_dir : string;
  _rank : Z;
  _local_rank : Z;
  _saver_group : option ProcessGroup;
  _cached_step : Z;
  _restart_count : Z;
  _event_queue : option string;
  local_shard_id : Z;
  _shm_lock : string;
  _shm_handler : Z
}.

Definition set_cached_step (s : Z) (e : CheckpointEngine) : CheckpointEngine :=
  {| checkpoint_dir := checkpoint_dir e;
     _rank := _rank e;
     _local_rank := _local_rank e;
     _saver_group := _saver_group e;
     _cached_step := s;
     _restart_count := _restart_count e;
     _event_queue := _event_queue e;
     local_shard_id := local_shard_id e;
     _shm_lock := _shm_lock e;
     _shm_handler := _shm_handler e |}.

(** A subclass sets [_saver_group] after the constructor of the base
    class left it at [None]. *)
Definition set_saver_group (g : option ProcessGroup) (e : CheckpointEngine)
  : CheckpointEngine :=
  {| checkpoint_dir := checkpoint_dir e;
     _rank := _rank e;
     _local_rank := _local_rank e;
     _saver_group := g;
     _cached_step := _cached_step e;
     _restart_count := _restart_count e;
     _event_queue := _event_queue e;
     local_shard_id := local_shard_id e;
     _shm_lock := _shm_lock e;
     _shm_handler := _shm_handler e |}.

(** A process: its engine object and the world around it. *)
Record Process := {
  self : CheckpointEngine;
  world : World
}.

(** A computation on the world, run by a method of the engine. *)
Definition on_world {A} (c : M World A) : M Process A :=
  fun p =>
    let (r, w') := c (world p) in
    (r, {| self := self p; world := w' |}).

Definition get_self : M Process CheckpointEngine :=
  fun p => (inr (self p), p).

Definition modify_self (f : CheckpointEngine -> CheckpointEngine)
  : M Process unit :=
  fun p => (inr tt, {| self := f (self p); world := world p |}).

(** What the constructor reads from the execution environment:
    [os.getenv("LOCAL_RANK")] as an integer when the variable is set, and
    [env_utils.get_torch_restart_count()]. *)
Record Environ := {
  LOCAL_RANK : option Z;
  torch_restart_count : Z
}.

Section Engine.
Context `{names : CkptSaverNames} `{impl : CheckpointEngineImpl}.

(** [_notify_agent_to_create_saver]: only local rank 0 goes on; on a
    restart it releases the lock and returns, on a first start it puts the
    class meta on the queue named "factory" and unlinks the queue. *)
Definition _notify_agent_to_create_saver : M Process unit :=
  self <- get_self ;;
  if negb (_local_rank self =? 0) then ret tt
  else if _restart_count self >? 0 then
    on_world (SharedLock_release (_shm_lock self))
  else
    let queue := "factory" in
    let local_shard_num := get_local_shard_num in
    let global_shard_num := get_global_shard_num in
    let clazz := get_saver_class in
    let class_meta :=
      {| module_path := __module__ clazz;
         class_name := __name__ clazz;
         init_args :=
           {| arg_checkpoint_dir := checkpoint_dir self;
              arg_local_shard_num := local_shard_num;
              arg_global_shard_num := global_shard_num |} |} in
    on_world (SharedQueue_put queue (MsgClassMeta class_meta)) ;;
    on_world (SharedQueue_unlink queue).

(** [_update_saver_config]: local rank 0 puts the event on
    [self._event_queue]; on [None] the attribute access [.put] raises. *)
Definition _update_saver_config : M Process unit :=
  self <- get_self ;;
  if _local_rank self =? 0 then
    let global_shard_num := get_global_shard_num in
    let event :=
      {| type := UPDATE_SHARD; global_shard_num := global_shard_num |} in
    match _event_queue self with
    | Some q => on_world (SharedQueue_put q (MsgEvent event))
    | None => raise AttributeError
    end
  else ret tt.

(** [CheckpointEngine.__init__]: the engine object when the constructor
    returns, and in any case the world it leaves.  [local_rank %
    local_shard_num] raises [ZeroDivisionError] on 0 and is otherwise
    Python's modulo, whose sign is that of the divisor, as [Z.modulo].
    Binding to the queue, the lock and the handler changes nothing in the
    world. *)
Definition __init__ (env : Environ) (checkpoint_dir : string)
  : M World CheckpointEngine :=
  fun w =>
    let rank := if dist_is_initialized w then dist_get_rank w else 0 in
    let local_rank := default 0 (LOCAL_RANK env) in
    let restart_count := torch_restart_count env in
    let event_queue :=
      if rank =? 0 then Some (SAVE_STEP_QNAME +:+ pretty 0) else None in
    let local_shard_num := get_local_shard_num in
    if local_shard_num =? 0 then (inl ZeroDivisionError, w)
    else
      let local_shard_id := local_rank `mod` local_shard_num in
      let lock_name := SHM_LOCK_NAME +:+ pretty local_shard_id in
      let engine :=
        {| checkpoint_dir := checkpoint_dir;
           _rank := rank;
           _local_rank := local_rank;
           _saver_group := None;
           _cached_step := 0;
           _restart_count := restart_count;
           _event_queue := event_queue;
           local_shard_id := local_shard_id;
           _shm_lock := lock_name;
           _shm_handler := local_shard_id |} in
      match (_notify_agent_to_create_saver ;; _update_saver_config)
              {| self := engine; world := w |} with
      | (inr _, p) => (inr (self p), world p)
      | (inl e, p) => (inl e, world p)
      end.

(** [close]: closes the handle on the shared memory. *)
Definition close : M Process unit :=
  self <- get_self ;;
  on_world (SharedMemoryHandler_close (_shm_handler self)).

(** [save_state_dict_to_memory].  The message written by [logger.info]
    when the write is skipped is not part of the model. *)
Definition save_state_dict_to_memory
    (state_dict : StateDict) (conf : CheckpointShardConfig)
  : M Process unit :=
  self <- get_self ;;
  if negb (_local_rank self =? local_shard_id self) then ret tt
  else
    match state_dict !! DLROVER_CKPT_CONFIG_KEY with
    | Some _ =>
        raise (ValueError ("The state_dict can not have the key "
                           +:+ DLROVER_CKPT_CONFIG_KEY +:+ "."))
    | None =>
        acquired <- on_world (SharedLock_acquire (_shm_lock self)) ;;
        all_rank_ready <-
          on_world (check_all_rank_ready (_saver_group self) acquired) ;;
        if negb all_rank_ready then
          if acquired then on_world (SharedLock_release (_shm_lock self))
          else ret tt
        else
          on_world (SharedMemoryHandler_save_state_dict
                      (_shm_handler self) state_dict conf) ;;
          (if acquired then on_world (SharedLock_release (_shm_lock self))
           else ret tt) ;;
          modify_self (set_cached_step (step conf)) ;;
          initialized <- (fun p => (inr (dist_is_initialized (world p)), p)) ;;
          if (initialized : bool) then
            on_world (dist_barrier (_saver_group self))
          else ret tt
    end.

(** [save_to_memory]; its decorator [timer] returns the result of the
    call and logs the time it took. *)
Definition save_to_memory (step : Z) (state_dict : StateDict)
    (path : string) : M Process unit :=
  let conf := SingleFileCheckpointConfig step path in
  save_state_dict_to_memory state_dict conf.

(** [get_state_dict_from_memory] *)
Definition get_state_dict_from_memory : M Process StateDict :=
  self <- get_self ;;
  let state_dict : StateDict := ∅ in
  let default_config := default_CheckpointShardConfig in
  config <- on_world (SharedMemoryHandler_get_checkpoint_config
                        (_shm_handler self) default_config) ;;
  if step config =? 0 then ret state_dict
  else
    passed <- on_world (verify_all_rank_step_consistent
                          (_saver_group self) (step config)) ;;
    if (passed : bool) then
      on_world (SharedMemoryHandler_load_state_dict (_shm_handler self))
    else ret state_dict.

End Engine.

(** ** Observations *)

(** The operations performed between two worlds of one run. *)
Definition new_effects (w w' : World) : list Effect :=
  skipn (length (trace w)) (trace w').

Definition is_ShmSave (e : Effect) : bool :=
  match e with ShmSave _ _ _ => true | _ => false end.

(** A [SaverClassMeta] put on the queue named "factory": the bootstrap
    descriptor. *)
Definition is_bootstrap (e : Effect) : bool :=
  match e with
  | QueuePut name (MsgClassMeta _) => String.eqb name "factory"
  | _ => false
  end.

Definition bootstrap_sent (t : list Effect) : nat :=
  length (filter (fun e => is_bootstrap e = true) t).

(** An [UPDATE_SHARD] event carrying [n], put on some queue. *)
Definition is_update_shard (n : Z) (e : Effect) : bool :=
  match e with
  | QueuePut _ (MsgEvent {| type := UPDATE_SHARD; global_shard_num := m |}) =>
      m =? n
  | _ => false
  end.

(** The step in the header of the region of a shard; 0 while nothing is
    staged. *)
Definition stored_step (shard : Z) (w : World) : Z :=
  match region_config (regions w shard) with
  | Some c => step c
  | None => 0
  end.

(** What makes a group sound for the vote: this process is one of its
    members, it has less than 2^63 members, and every other member
    contributes the value of a vote. *)
Definition sound_group (group : option ProcessGroup) (w : World) : Prop :=
  match group with
  | None => True
  | Some g =>
      (pg_rank g < pg_size g)%nat
      /\ Z.of_nat (pg_size g) < 2 ^ 63
      /\ forall i, peer_int64 w i = 0 \/ peer_int64 w i = 1
  end.

(** Every element is at most the next one, starting from [x]. *)
Fixpoint chain_from (x : Z) (l : list Z) : Prop :=
  match l with
  | [] => True
  | y :: rest => x <= y /\ chain_from y rest
  end.

(** ** Several processes *)

(** The value that [check_all_rank_ready] gives to a vote. *)
Definition vote_value (b : bool) : Z := if b then 0 else 1.

(** What [acquire(blocking=False)] is about to return in a process. *)
Definition vote (p : Process) : bool :=
  negb (locks (world p) (_shm_lock (self p))).

Definition set_peer_int64 (f : nat -> Z) (w : World) : World :=
  {| dist_is_initialized := dist_is_initialized w;
     dist_get_rank := dist_get_rank w;
     locks := locks w;
     regions := regions w;
     queues := queues w;
     peer_int64 := f;
     peer_float32 := peer_float32 w;
     trace := trace w |}.

(** A member of a group whose members all call [save_state_dict_to_memory]
    at the same time: the others contribute to its [all_reduce] the value
    of their own vote. *)
Definition hear (ranks : list Process) (p : Process) : Process :=
  {| self := self p;
     world :=
       set_peer_int64
         (fun j => match nth_error ranks j with
                   | Some q => if vote q then 0 else 1
                   | None => 0
                   end)
         (world p) |}.

Section Cluster.
Context `{names : CkptSaverNames} `{impl : CheckpointEngineImpl}.

(** Every member of the group, with its own lock and region, calls
    [save_state_dict_to_memory] with its state dict and the same config:
    the outcome in every member, in the order of the ranks. *)
Definition collective_save
    (ranks : list (Process * StateDict)) (conf : CheckpointShardConfig)
  : list ((Exception + unit) * Process) :=
  map (fun m => save_state_dict_to_memory (snd m) conf
                  (hear (map fst ranks) (fst m)))
      ranks.

(** The member of rank [i] of a group of [n] reaches the collective
    call: it is the writer of its shard, its state dict is free of the
    reserved key, and its group is the group of the cluster. *)
Definition reaches_collective (n i : nat) (m : Process * StateDict) : bool :=
  (_local_rank (self (fst m)) =? local_shard_id (self (fst m)))
  && match snd m !! DLROVER_CKPT_CONFIG_KEY with
     | None => true
     | Some _ => false
     end
  && match _saver_group (self (fst m)) with
     | Some g => Nat.eqb (pg_rank g) i && Nat.eqb (pg_size g) n
     | None => false
     end.

Fixpoint members_from (n i : nat) (ranks : list (Process * StateDict))
  : bool :=
  match ranks with
  | [] => true
  | m :: rest => reaches_collective n i m && members_from n (S i) rest
  end.

Definition in_lock_step (ranks : list (Process * StateDict)) : bool :=
  members_from (length ranks) 0 ranks.

(** The bootstrap descriptor sent by the constructor of an engine over
    [dir], and the event that announces the shards. *)
Definition descriptor (dir : string) : SaverClassMeta :=
  {| module_path := __module__ get_saver_class;
     class_name := __name__ get_saver_class;
     init_args :=
       {| arg_checkpoint_dir := dir;
          arg_local_shard_num := get_local_shard_num;
          arg_global_shard_num := get_global_shard_num |} |}.

Definition update_shard_event : CheckpointEvent :=
  {| type := UPDATE_SHARD; global_shard_num := get_global_shard_num |}.

(** The name of the lock that the constructor binds the engine to. *)
Definition lock_name_of (env : Environ) : string :=
  SHM_LOCK_NAME +:+ pretty (default 0 (LOCAL_RANK env) `mod` get_local_shard_num).

(** A training loop: one call of [save_to_memory] for every element of
    the list, and the step stored in the region of [shard] after each. *)
Fixpoint stored_steps (shard : Z) (calls : list (Z * StateDict * string))
    (p : Process) : list Z :=
  match calls with
  | [] => []
  | (s, sd, dir) :: rest =>
      let p' := snd (save_to_memory s sd dir p) in
      stored_step shard (world p') :: stored_steps shard rest p'
  end.

(** The process is started again and again: one construction of the
    engine for every restart count of the list, on the world the
    previous one left. *)
Fixpoint restarts (local_rank : option Z) (dir : string)
    (counts : list Z) (w : World) : World :=
  match counts with
  | [] => w
  | c :: rest =>
      restarts local_rank dir rest
        (snd (__init__ {| LOCAL_RANK := local_rank;
                          torch_restart_count := c |} dir w))
  end.

End Cluster.

(** ** Concrete inputs *)

Definition example_names : CkptSaverNames :=
  {| DLROVER_CKPT_CONFIG_KEY := "_DLORVER_CKPT_CONFIG";
     SAVE_STEP_QNAME := "checkpoint_lock_rank_";
     SHM_LOCK_NAME := "shm_local_rank_" |}.

Definition example_impl : CheckpointEngineImpl :=
  {| get_saver_class :=
       {| __module__ := "dlrover.python.elastic_agent.torch.ckpt_saver";
          __name__ := "CommonDirCheckpointSaver" |};
     get_local_shard_num := 1;
     get_global_shard_num := 1 |}.

Definition empty_region : Region :=
  {| region_config := None; region_state := ∅ |}.

(** A single process without [torch.distributed]: every lock free, nothing
    staged, nothing queued. *)
Definition world0 : World :=
  {| dist_is_initialized := false;
     dist_get_rank := 0;
     locks := fun _ => false;
     regions := fun _ => empty_region;
     queues := fun _ => [];
     peer_int64 := fun _ => 0;
     peer_float32 := fun _ => Finite 0;
     trace := [] |}.

(** A process of a distributed job, with global rank [r]. *)
Definition world_dist (r : Z) : World :=
  {| dist_is_initialized := true;
     dist_get_rank := r;
     locks := fun _ => false;
     regions := fun _ => empty_region;
     queues := fun _ => [];
     peer_int64 := fun _ => 0;
     peer_float32 := fun _ => Finite 0;
     trace := [] |}.

Definition env0 : Environ :=
  {| LOCAL_RANK := Some 0; torch_restart_count := 0 |}.

(** The engine of the writer of shard 0, as the constructor leaves it on
    [world0]. *)
Definition engine0 : CheckpointEngine :=
  {| checkpoint_dir := "/ckpt";
     _rank := 0;
     _local_rank := 0;
     _saver_group := None;
     _cached_step := 0;
     _restart_count := 0;
     _event_queue := Some "checkpoint_lock_rank_0";
     local_shard_id := 0;
     _shm_lock := "shm_local_rank_0";
     _shm_handler := 0 |}.

Definition set_peer_float32 (f : nat -> Float32) (w : World) : World :=
  {| dist_is_initialized := dist_is_initialized w;
     dist_get_rank := dist_get_rank w;
     locks := locks w;
     regions := regions w;
     queues := queues w;
     peer_int64 := peer_int64 w;
     peer_float32 := f;
     trace := trace w |}.

(** Rank 1 of a group of two; the region of rank 0 holds step 2^24. *)
Definition group2 : ProcessGroup := {| pg_rank := 1; pg_size := 2 |}.

Definition world_steps : World :=
  set_peer_float32 (fun _ => Finite 16777216) (world_dist 1).

Definition state_w : StateDict := {[ "w" := [1; 2; 3] ]}.

Definition state_reserved : StateDict :=
  {[ "_DLORVER_CKPT_CONFIG" := [0] ]}.


Definition env_restarted : Environ :=
  {| LOCAL_RANK := Some 0; torch_restart_count := 2 |}.

(** A region in which step 5 is staged. *)
Definition world_staged : World :=
  set_region 0 {| region_config := Some {| step := 5; path := "" |};
                  region_state := {[ "w" := [1; 2; 3] ]} |} world0.

Definition process0 : Process := {| self := engine0; world := world0 |}.

Definition conf5 : CheckpointShardConfig := {| step := 5; path := "" |}.

Definition calls_5_7 : list (Z * StateDict * string) :=
  [(5, state_w, ""); (7, state_w, "")].

(** Two writers on two nodes form the saver group; the lock of the second
    one is held (its saver is draining the region). *)
Definition engine1 : CheckpointEngine :=
  {| checkpoint_dir := "/ckpt";
     _rank := 1;
     _local_rank := 0;
     _saver_group := Some {| pg_rank := 1; pg_size := 2 |};
     _cached_step := 0;
     _restart_count := 0;
     _event_queue := None;
     local_shard_id := 0;
     _shm_lock := "shm_local_rank_0";
     _shm_handler := 0 |}.

Definition rank0_free : Process :=
  {| self := set_saver_group (Some {| pg_rank := 0; pg_size := 2 |}) engine0;
     world := world_dist 0 |}.

Definition rank1_held : Process :=
  {| self := engine1;
     world := set_lock "shm_local_rank_0" true (world_dist 1) |}.

Definition cluster2 : list (Process * StateDict) :=
  [(rank0_free, state_w); (rank1_held, state_w)].

(** The second writer after its attempt to take the lock, and after the
    collective call. *)
Definition held_after_acquire : World :=
  emit (LockAcquire "shm_local_rank_0" false) (world rank1_held).

Definition held_after_reduce : World :=
  emit (AllReduce {| pg_rank := 1; pg_size := 2 |} 1) held_after_acquire.

(** The first writer of a group whose members all take their locks. *)
Definition free_after_acquire : World :=
  emit (LockAcquire "shm_local_rank_0" true)
    (set_lock "shm_local_rank_0" true (world rank0_free)).

Definition free_after_reduce : World :=
  emit (AllReduce {| pg_rank := 0; pg_size := 2 |} 0) free_after_acquire.

(** A replica of shard 0: local rank 1 on a node with one local shard. *)
Definition replica : Process :=
  {| self :=
       {| checkpoint_dir := "/ckpt";
          _rank := 1;
          _local_rank := 1;
          _saver_group := None;
          _cached_step := 0;
          _restart_count := 0;
          _event_queue := None;
          local_shard_id := 0;
          _shm_lock := "shm_local_rank_0";
          _shm_handler := 0 |};
     world := world_dist 1 |}.

Definition process_staged : Process :=
  {| self := engine0; world := world_staged |}.

(** Rank 1 of a group of two holds step 5, rank 0 holds step 7. *)
Definition process_diverged : Process :=
  {| self := engine1;
     world := set_peer_float32 (fun _ => Finite 7) world_staged |}.

Definition votes_1_0 (i : nat) : bool :=
  match i with 0%nat => true | _ => false end.

Definition world_votes : World :=
  set_peer_int64 (fun i => if votes_1_0 i then 0 else 1) (world_dist 1).

(** * The Ray worker of the TensorFlow trainer

    The part of [dlrover/trainer/worker/tf_ray_worker.py] by which the
    workers find the parameter servers: a parameter server reports its
    address as the name of an empty file of the working directory, and a
    worker scans the directory until it sees the expected number of such
    files. *)

(** The parsed command line, for the attributes read by these methods. *)
Record Args := {
  task_id : Z;
  task_type : string;
  ps_num : Z
}.

(** The working directory: the content of every file, by name. *)
Abbreviation Directory := (gmap string string).

(** What [os.listdir("./")] may return on a directory: the names of its
    files, each once, in any order. *)
Definition is_listing (d : Directory) (dir_list : list string) : Prop :=
  NoDup dir_list /\ forall file, In file dir_list <-> is_Some (d !! file).

(** [s.split(sep)] for a separator of one character: the fields between
    the occurrences of the separator; never the empty list. *)
Fixpoint split (sep : Ascii.ascii) (s : string) : list string :=
  match s with
  | EmptyString => [EmptyString]
  | String c s' =>
      if Ascii.eqb c sep then EmptyString :: split sep s'
      else
        match split sep s' with
        | field :: fields => String c field :: fields
        | [] => [String c EmptyString]
        end
  end.

(** [file.split("_")[-1]] *)
Definition address_of (file : string) : string :=
  List.last (split "_"%char file) EmptyString.

(** [parse_worker_type_and_id]: the id first, then the type. *)
Definition parse_worker_type_and_id (args : Args) : Z * string :=
  let '(task_id, task_type) := (task_id args, task_type args) in
  (task_id, task_type).

(** The body of [for file in dir_list], on the pair of [ps_num] and
    [ps_cluster]. *)
Definition scan_file (acc : Z * list string) (file : string)
  : Z * list string :=
  let '(ps_num, ps_cluster) := acc in
  if String.prefix "ps_address_" file then
    let ps_num := ps_num + 1 in
    let address := address_of file in
    (ps_num, ps_cluster ++ [address])
  else (ps_num, ps_cluster).

(** One round of [while True] up to the test: [ps_num] and [ps_cluster]
    after the loop over the listing. *)
Definition scan_dir (dir_list : list string) : Z * list string :=
  fold_left scan_file dir_list (0, []).

(** [get_ps_cluster].  Every round lists the directory anew, while other
    processes write to it: [listings] holds what [os.listdir("./")]
    returns round after round.  The result is [None] when the loop is
    still running after the last of them. *)
Fixpoint get_ps_cluster (args : Args) (listings : list (list string))
  : option (list string) :=
  match listings with
  | [] => None
  | dir_list :: later =>
      let '(n, ps_cluster) := scan_dir dir_list in
      if n =? ps_num args then Some ps_cluster
      else get_ps_cluster args later
  end.

(** [report_ps_address]: ["ps_address_{}".format(address)] is opened for
    writing, which creates the file or empties it, and nothing is
    written.  The file is one of the working directory when the address
    has no path separator, which is the case modelled. *)
Definition report_ps_address (address : string) (d : Directory) : Directory :=
  let file_name := "ps_address_" +:+ address in
  <[file_name := ""]> d.

(** [health_check] *)
Definition health_check : string := "OK".

(** The character is not in the string. *)
Fixpoint free_of (c : Ascii.ascii) (s : string) : bool :=
  match s with
  | EmptyString => true
  | String c' s' => negb (Ascii.eqb c' c) && free_of c s'
  end.

(** No file of the directory is the report of a parameter server. *)
Definition no_report (d : Directory) : Prop :=
  forall file, is_Some (d !! file) -> String.prefix "ps_address_" file = false.

(** The directory after the servers of the list have reported. *)
Definition reported (addresses : list string) (d : Directory) : Directory :=
  fold_right report_ps_address d addresses.

(** ** Concrete inputs of the worker *)

Definition worker_args : Args :=
  {| task_id := 0; task_type := "worker"; ps_num := 2 |}.

Definition two_servers : list string := ["10.0.0.1:2222"; "10.0.0.2:2222"].

Definition job_dir : Directory := {[ "train.py" := "import dlrover" ]}.

(** A server whose address has an underscore, alone in the job. *)
Definition one_server_args : Args :=
  {| task_id := 0; task_type := "worker"; ps_num := 1 |}.

Definition listing_underscore : list string :=
  ["train.py"; "ps_address_ps_0:2222"].

Definition listing_two : list string :=
  ["ps_address_10.0.0.2:2222"; "train.py"; "ps_address_10.0.0.1:2222"].

(** ** Observations on the engine, continued *)

(** The operations that only read: of the header, of the payload, and the
    gathering of the steps. *)
Definition is_read (e : Effect) : bool :=
  match e with
  | ShmGetConfig _ | ShmLoad _ | AllGather _ _ => true
  | _ => false
  end.

(** A lock that the saver holds while the writer of shard 0 saves. *)
Definition process_locked : Process :=
  {| self := engine0; world := set_lock "shm_local_rank_0" true world0 |}.

Section Constructed.
Context `{names : CkptSaverNames} `{impl : CheckpointEngineImpl}.

(** The attributes that the constructor assigns before it notifies the
    agent. *)
Definition constructed (env : Environ) (dir : string) (w : World)
  : CheckpointEngine :=
  let rank := if dist_is_initialized w then dist_get_rank w else 0 in
  let local_rank := default 0 (LOCAL_RANK env) in
  {| checkpoint_dir := dir;
     _rank := rank;
     _local_rank := local_rank;
     _saver_group := None;
     _cached_step := 0;
     _restart_count := torch_restart_count env;
     _event_queue :=
       if rank =? 0 then Some (SAVE_STEP_QNAME +:+ pretty 0) else None;
     local_shard_id := local_rank `mod` get_local_shard_num;
     _shm_lock := lock_name_of env;
     _shm_handler := local_rank `mod` get_local_shard_num |}.

End Constructed.


(** An engine class that declares no local shard. *)
Definition impl_no_shard : CheckpointEngineImpl :=
  {| get_saver_class :=
       {| __module__ := "dlrover.python.elastic_agent.torch.ckpt_saver";
          __name__ := "CommonDirCheckpointSaver" |};
     get_local_shard_num := 0;
     get_global_shard_num := 0 |}.

(** The second process of a node. *)
Definition env_local_rank_1 : Environ :=
  {| LOCAL_RANK := Some 1; torch_restart_count := 0 |}.

(** Two writers whose locks are both free. *)
Definition rank1_free : Process :=
  {| self := engine1; world := world_dist 1 |}.

Definition cluster_free : list (Process * StateDict) :=
  [(rank0_free, state_w); (rank1_free, state_w)].

(** Rank 1 of a group of two whose rank 0 holds step 5. *)
Definition world_step_5 : World :=
  set_peer_float32 (fun _ => Finite 5) (world_dist 1).

(** * Properties *)

(** ** Arithmetic of the tensors *)

Lemma wrap64_small (z : Z) : - 2 ^ 63 <= z < 2 ^ 63 -> wrap64 z = z.
Proof.
  intros Hz. unfold wrap64.
  rewrite Z.mod_small; lia.
Qed.

Lemma fold_int64_exact (ts : list Z) :
  forall acc,
    Forall (fun t => 0 <= t <= 1) ts ->
    0 <= acc ->
    acc + Z.of_nat (length ts) < 2 ^ 63 ->
    fold_left (fun a t => wrap64 (a + t)) ts acc = acc + Zsum ts.
Proof.
  induction ts as [| t ts IH]; intros acc Hts Hacc Hlen; simpl.
  - lia.
  - inversion Hts as [| ? ? Ht Hrest]; subst.
    simpl length in Hlen. rewrite Nat2Z.inj_succ in Hlen.
    rewrite wrap64_small by lia.
    rewrite IH by (try assumption; lia). lia.
Qed.

Lemma sum_int64_exact (ts : list Z) :
  Forall (fun t => 0 <= t <= 1) ts ->
  Z.of_nat (length ts) < 2 ^ 63 ->
  sum_int64 ts = Zsum ts.
Proof.
  intros Hts Hlen. unfold sum_int64.
  rewrite fold_int64_exact by (try assumption; lia). lia.
Qed.

Lemma Zsum_nonneg (ts : list Z) :
  Forall (fun t => 0 <= t <= 1) ts -> 0 <= Zsum ts.
Proof.
  induction 1 as [| t ts Ht _ IH]; simpl; lia.
Qed.

Lemma Zsum_zero (ts : list Z) :
  Forall (fun t => 0 <= t <= 1) ts ->
  Zsum ts = 0 <-> Forall (fun t => t = 0) ts.
Proof.
  induction 1 as [| t ts Ht Hts IH]; simpl.
  - split; [constructor | reflexivity].
  - pose proof (Zsum_nonneg ts Hts) as Hpos. split.
    + intros Hsum. constructor; [lia |]. apply IH. lia.
    + intros Hall. inversion Hall as [| ? ? H0 Hrest]; subst.
      apply IH in Hrest. lia.
Qed.

(** ** The members of a collective call *)

Lemma contributions_length {T} (g : ProcessGroup) (own : T) peers :
  length (contributions g own peers) = pg_size g.
Proof. unfold contributions. now rewrite length_map, length_seq. Qed.

Lemma contributions_map {T U} (f : T -> U) (g : ProcessGroup) own peers :
  contributions g (f own) (fun i => f (peers i))
  = map f (contributions g own peers).
Proof.
  unfold contributions. rewrite map_map. apply map_ext.
  intros i. now destruct (Nat.eqb i (pg_rank g)).
Qed.

Lemma contributions_ext {T} (g : ProcessGroup) (own : T) peers peers' :
  (forall i, peers i = peers' i) ->
  contributions g own peers = contributions g own peers'.
Proof.
  intros Hext. unfold contributions. apply map_ext.
  intros i. rewrite Hext. reflexivity.
Qed.

(** This process is one of the members. *)
Lemma contributions_own {T} (g : ProcessGroup) (own : T) peers :
  (pg_rank g < pg_size g)%nat -> In own (contributions g own peers).
Proof.
  intros Hrank. unfold contributions. apply in_map_iff.
  exists (pg_rank g). rewrite Nat.eqb_refl. split; [reflexivity |].
  apply in_seq. lia.
Qed.

Lemma vote_values_bounded (bs : list bool) :
  Forall (fun t => 0 <= t <= 1) (map vote_value bs).
Proof.
  induction bs as [| b bs IH]; simpl; constructor; try assumption.
  destruct b; simpl; lia.
Qed.

Lemma vote_values_zero (bs : list bool) :
  Forall (fun t => t = 0) (map vote_value bs) <-> Forall (fun b => b = true) bs.
Proof.
  induction bs as [| b bs IH]; simpl.
  - split; constructor.
  - split; intros Hall; inversion Hall as [| ? ? Hb Hrest]; subst;
      constructor; try (now apply IH).
    + now destruct b.
    + reflexivity.
Qed.

(** The reduction of the votes of a group of less than 2^63 members is 0
    exactly when every member voted true. *)
Lemma sum_votes_zero (bs : list bool) :
  Z.of_nat (length bs) < 2 ^ 63 ->
  (sum_int64 (map vote_value bs) =? 0) = true
  <-> Forall (fun b => b = true) bs.
Proof.
  intros Hlen.
  rewrite sum_int64_exact
    by (rewrite ?length_map; auto using vote_values_bounded).
  rewrite Z.eqb_eq, Zsum_zero by apply vote_values_bounded.
  apply vote_values_zero.
Qed.

(** ** check_all_rank_ready *)

(** C3. Without a group [check_all_rank_ready] returns the local vote
    unchanged.  With a group it reduces by sum the value 0 of a true vote
    and 1 of a false vote, and returns whether the reduced value is 0; in
    a group of less than 2^63 members whose other members contribute the
    value of their votes, that is: every participant voted true. *)
Theorem check_all_rank_ready_spec :
  (forall ready w, check_all_rank_ready None ready w = (inr ready, w))
  /\ (forall g ready w,
        check_all_rank_ready (Some g) ready w
        = (inr (sum_int64
                  (contributions g (if ready then 0 else 1) (peer_int64 w))
                =? 0),
           emit (AllReduce g (if ready then 0 else 1)) w))
  /\ (forall g ready (votes : nat -> bool) w,
        Z.of_nat (pg_size g) < 2 ^ 63 ->
        (forall i, peer_int64 w i = if votes i then 0 else 1) ->
        fst (check_all_rank_ready (Some g) ready w) = inr true
        <-> Forall (fun b => b = true) (contributions g ready votes)).
Proof.
  split; [reflexivity |]. split; [reflexivity |].
  intros g ready votes w Hsize Hpeers. simpl.
  rewrite (contributions_ext g _ _ (fun i => vote_value (votes i)))
    by (intros i; apply Hpeers).
  change (if ready then 0 else 1) with (vote_value ready).
  rewrite contributions_map.
  rewrite <- sum_votes_zero by (now rewrite contributions_length).
  split; [intros [= ->]; reflexivity | intros ->; reflexivity].
Qed.

(** ** verify_all_rank_step_consistent *)

Lemma Float32_eqb_eq (a b : Float32) : Float32_eqb a b = true <-> a = b.
Proof.
  destruct a as [x | s], b as [y | t]; simpl; split; intros H;
    try discriminate; try (injection H as ->).
  - apply Z.eqb_eq in H. now subst.
  - apply Z.eqb_refl.
  - apply Bool.eqb_prop in H. now subst.
  - now destruct t.
Qed.

Lemma all_equal_to_Forall (first : Float32) (outputs : list Float32) :
  all_equal_to first outputs = true <-> Forall (fun s => s = first) outputs.
Proof.
  induction outputs as [| s rest IH]; simpl.
  - split; constructor.
  - destruct (Float32_eqb s first) eqn:E; simpl.
    + apply Float32_eqb_eq in E. rewrite IH. split.
      * now constructor.
      * intros Hall. now inversion Hall.
    + split; [discriminate |]. intros Hall.
      inversion Hall as [| ? ? Hs _]; subst.
      assert (Float32_eqb first first = true) by now apply Float32_eqb_eq.
      congruence.
Qed.

(** Without a group the check passes, whatever the step. *)
Lemma verify_no_group (s : Z) (w : World) :
  verify_all_rank_step_consistent None s w = (inr true, w).
Proof. reflexivity. Qed.

(** With a group the check passes exactly when every gathered tensor
    equals the first one. *)
Lemma verify_group_gathered (g : ProcessGroup) (s : Z) (t : Float32) w :
  tensor_of_step s = inr t ->
  exists b,
    verify_all_rank_step_consistent (Some g) s w
    = (inr b, emit (AllGather g t) w)
    /\ (b = true <->
        forall first rest,
          contributions g t (peer_float32 w) = first :: rest ->
          Forall (fun x => x = first) (first :: rest)).
Proof.
  intros Ht. unfold verify_all_rank_step_consistent, bind, of_result.
  rewrite Ht. simpl.
  destruct (contributions g t (peer_float32 w)) as [| first rest] eqn:E.
  - exists true. split; [reflexivity |]. split; [discriminate | reflexivity].
  - eexists. split; [reflexivity |].
    rewrite all_equal_to_Forall. split.
    + intros Hall f r [= <- <-]. exact Hall.
    + intros Hall. now apply Hall.
Qed.

Lemma round_half_even_exact (p n : Z) :
  0 < p -> Z.abs n <= 2 ^ p -> Z.abs n <> 2 ^ p -> round_half_even p n = n.
Proof.
  intros Hp Hle Hne. unfold round_half_even.
  destruct (Z.eq_dec n 0) as [-> | Hn0].
  - change (Z.log2 (Z.abs 0)) with 0.
    destruct (0 + 1 - p <=? 0) eqn:E; [reflexivity | lia].
  - assert (Hlog : Z.log2 (Z.abs n) < p).
    { apply Z.log2_lt_pow2; lia. }
    destruct (Z.log2 (Z.abs n) + 1 - p <=? 0) eqn:E; [reflexivity | lia].
Qed.

(** Below 2^24 in magnitude the tensor holds the step itself. *)
Lemma tensor_of_step_exact (s : Z) :
  Z.abs s < 2 ^ 24 -> tensor_of_step s = inr (Finite s).
Proof.
  intros Hs. unfold tensor_of_step, py_float, to_float32.
  assert (H53 : 2 ^ 24 < 2 ^ 53) by (apply Z.pow_lt_mono_r; lia).
  assert (H128 : 2 ^ 24 < 2 ^ 128) by (apply Z.pow_lt_mono_r; lia).
  assert (H1024 : 2 ^ 24 < 2 ^ 1024) by (apply Z.pow_lt_mono_r; lia).
  rewrite (round_half_even_exact 53) by lia.
  destruct (Z.abs s <? 2 ^ 1024) eqn:E1; [| lia].
  rewrite (round_half_even_exact 24) by lia.
  destruct (Z.abs s <? 2 ^ 128) eqn:E2; [reflexivity | lia].
Qed.

(** Two ranks whose steps are distinct and below 2^24 in magnitude are
    told apart. *)
Lemma verify_small_steps_differ (s s' : Z) (w : World) :
  Z.abs s < 2 ^ 24 -> Z.abs s' < 2 ^ 24 -> s <> s' ->
  peer_float32 w 0%nat = Finite s' ->
  fst (verify_all_rank_step_consistent (Some group2) s w) = inr false.
Proof.
  intros Hs Hs' Hne Hpeer.
  unfold verify_all_rank_step_consistent, bind, of_result.
  rewrite (tensor_of_step_exact s Hs). simpl. rewrite Hpeer. simpl.
  rewrite Z.eqb_refl. simpl.
  destruct (s =? s') eqn:E; [apply Z.eqb_eq in E; contradiction | reflexivity].
Qed.

(** C7, at steps 2^24 and 2^24 + 1.  The tensor gathered from each rank
    is a float32, and both steps have the same float32: in a group of two
    whose rank 0 holds step 16777216, the rank holding step 16777217 gets
    true although the steps differ. *)
Theorem verify_all_rank_step_consistent_float32_collision :
  tensor_of_step 16777216 = inr (Finite 16777216)
  /\ tensor_of_step 16777217 = inr (Finite 16777216)
  /\ peer_float32 world_steps 0%nat = Finite 16777216
  /\ 16777216 <> 16777217
  /\ fst (verify_all_rank_step_consistent (Some group2) 16777217 world_steps)
     = inr true.
Proof.
  repeat split; try (vm_compute; reflexivity). lia.
Qed.

(** ** Traces *)

Lemma new_effects_app (w w' : World) (l : list Effect) :
  trace w' = trace w ++ l -> new_effects w w' = l.
Proof.
  intros H. unfold new_effects. rewrite H. clear H.
  induction (trace w) as [| e t IH]; simpl; [reflexivity | exact IH].
Qed.

(** What acquiring the lock leaves. *)
Lemma acquire_result (name : string) (w : World) :
  exists w1,
    SharedLock_acquire name w = (inr (negb (locks w name)), w1)
    /\ trace w1 = trace w ++ [LockAcquire name (negb (locks w name))]
    /\ regions w1 = regions w
    /\ dist_is_initialized w1 = dist_is_initialized w
    /\ peer_int64 w1 = peer_int64 w
    /\ locks w1 name = true
    /\ (forall n, n <> name -> locks w1 n = locks w n).
Proof.
  unfold SharedLock_acquire.
  destruct (locks w name) eqn:Held; eexists; (split; [reflexivity |]);
    simpl; repeat split; auto.
  - now rewrite String.eqb_refl.
  - intros n Hn. apply String.eqb_neq in Hn. now rewrite Hn.
Qed.

(** What the agreement check leaves: it does not raise and touches neither
    lock nor region. *)
Lemma check_result (group : option ProcessGroup) (ready : bool) (w : World) :
  exists b w2,
    check_all_rank_ready group ready w = (inr b, w2)
    /\ trace w2
       = trace w ++ match group with
                    | Some g => [AllReduce g (vote_value ready)]
                    | None => []
                    end
    /\ regions w2 = regions w
    /\ locks w2 = locks w
    /\ dist_is_initialized w2 = dist_is_initialized w.
Proof.
  destruct group as [g |]; simpl.
  - do 2 eexists. split; [reflexivity |]. simpl. now destruct ready.
  - exists ready, w. split; [reflexivity |]. simpl.
    now rewrite app_nil_r.
Qed.

(** In a group of less than 2^63 members that contribute 0 or 1, the check
    passes only for a member that voted true. *)
Lemma check_passes_own_vote (g : ProcessGroup) (ready : bool) (w : World) :
  (pg_rank g < pg_size g)%nat ->
  Z.of_nat (pg_size g) < 2 ^ 63 ->
  (forall i, peer_int64 w i = 0 \/ peer_int64 w i = 1) ->
  fst (check_all_rank_ready (Some g) ready w) = inr true ->
  ready = true.
Proof.
  intros Hrank Hsize Hpeers Hpass. simpl in Hpass.
  injection Hpass as Hsum.
  set (ts := contributions g (if ready then 0 else 1) (peer_int64 w)) in *.
  assert (Hbound : Forall (fun t => 0 <= t <= 1) ts).
  { apply List.Forall_forall. intros t Hin. unfold ts, contributions in Hin.
    apply in_map_iff in Hin as (i & <- & _).
    destruct (Nat.eqb i (pg_rank g)).
    - destruct ready; lia.
    - destruct (Hpeers i); lia. }
  rewrite sum_int64_exact in Hsum
    by (try assumption; unfold ts; now rewrite contributions_length).
  apply Z.eqb_eq in Hsum. apply Zsum_zero in Hsum; [| assumption].
  rewrite List.Forall_forall in Hsum.
  specialize (Hsum _ (contributions_own g _ (peer_int64 w) Hrank)).
  destruct ready; [reflexivity | discriminate].
Qed.

Section Save.
Context `{names : CkptSaverNames}.

(** ** save_state_dict_to_memory *)

(** The call when the agreement check fails. *)
Lemma save_skip (p : Process) (sd : StateDict) (conf : CheckpointShardConfig)
    (acquired : bool) (w1 w2 : World) :
  _local_rank (self p) = local_shard_id (self p) ->
  sd !! DLROVER_CKPT_CONFIG_KEY = None ->
  SharedLock_acquire (_shm_lock (self p)) (world p) = (inr acquired, w1) ->
  check_all_rank_ready (_saver_group (self p)) acquired w1 = (inr false, w2) ->
  save_state_dict_to_memory sd conf p
  = (inr tt,
     {| self := self p;
        world := if acquired
                 then emit (LockRelease (_shm_lock (self p)))
                        (set_lock (_shm_lock (self p)) false w2)
                 else w2 |}).
Proof.
  intros Hwriter Hkey Hacq Hcheck.
  unfold save_state_dict_to_memory, bind, get_self, on_world. simpl.
  rewrite Hwriter, Z.eqb_refl. simpl. rewrite Hkey, Hacq. simpl.
  rewrite Hcheck. simpl.
  destruct acquired; reflexivity.
Qed.

(** The call when the agreement check passes. *)
Lemma save_commit (p : Process) (sd : StateDict) (conf : CheckpointShardConfig)
    (acquired : bool) (w1 w2 : World) :
  _local_rank (self p) = local_shard_id (self p) ->
  sd !! DLROVER_CKPT_CONFIG_KEY = None ->
  SharedLock_acquire (_shm_lock (self p)) (world p) = (inr acquired, w1) ->
  check_all_rank_ready (_saver_group (self p)) acquired w1 = (inr true, w2) ->
  save_state_dict_to_memory sd conf p
  = (inr tt,
     {| self := set_cached_step (step conf) (self p);
        world :=
          let w3 :=
            emit (ShmSave (_shm_handler (self p)) conf sd)
              (set_region (_shm_handler (self p))
                 {| region_config := Some conf; region_state := sd |} w2) in
          let w4 :=
            if acquired
            then emit (LockRelease (_shm_lock (self p)))
                   (set_lock (_shm_lock (self p)) false w3)
            else w3 in
          if dist_is_initialized w2
          then emit (Barrier (_saver_group (self p))) w4
          else w4 |}).
Proof.
  intros Hwriter Hkey Hacq Hcheck.
  unfold save_state_dict_to_memory, bind, get_self, on_world, modify_self.
  simpl.
  rewrite Hwriter, Z.eqb_refl. simpl. rewrite Hkey, Hacq. simpl.
  rewrite Hcheck. simpl.
  destruct acquired; simpl; destruct (dist_is_initialized w2); reflexivity.
Qed.

(** Without the reserved key the writer's call returns. *)
Lemma save_returns (p : Process) (sd : StateDict)
    (conf : CheckpointShardConfig) :
  _local_rank (self p) = local_shard_id (self p) ->
  sd !! DLROVER_CKPT_CONFIG_KEY = None ->
  fst (save_state_dict_to_memory sd conf p) = inr tt.
Proof.
  intros Hwriter Hkey.
  destruct (acquire_result (_shm_lock (self p)) (world p))
    as (w1 & Hacq & _).
  destruct (check_result (_saver_group (self p))
              (negb (locks (world p) (_shm_lock (self p)))) w1)
    as (b & w2 & Hcheck & _).
  destruct b.
  - now rewrite (save_commit p sd conf _ w1 w2 Hwriter Hkey Hacq Hcheck).
  - now rewrite (save_skip p sd conf _ w1 w2 Hwriter Hkey Hacq Hcheck).
Qed.

(** A process that is not the writer of its shard returns at once. *)
Lemma save_off_writer (p : Process) (sd : StateDict)
    (conf : CheckpointShardConfig) :
  _local_rank (self p) <> local_shard_id (self p) ->
  save_state_dict_to_memory sd conf p = (inr tt, p).
Proof.
  intros Hoff. unfold save_state_dict_to_memory, bind, get_self. simpl.
  destruct (Z.eqb_spec (_local_rank (self p)) (local_shard_id (self p)))
    as [Heq | _]; [contradiction | reflexivity].
Qed.

(** The writer raises on a state dict that holds the reserved key, before
    anything else. *)
Lemma save_reserved_key (p : Process) (sd : StateDict)
    (conf : CheckpointShardConfig) :
  _local_rank (self p) = local_shard_id (self p) ->
  is_Some (sd !! DLROVER_CKPT_CONFIG_KEY) ->
  save_state_dict_to_memory sd conf p
  = (inl (ValueError ("The state_dict can not have the key "
                      +:+ DLROVER_CKPT_CONFIG_KEY +:+ ".")),
     p).
Proof.
  intros Hwriter [v Hv].
  unfold save_state_dict_to_memory, bind, get_self, raise. simpl.
  rewrite Hwriter, Z.eqb_refl. simpl. now rewrite Hv.
Qed.

(** C9. A process that is not the writer of its shard returns at once
    from [save_state_dict_to_memory], and so from [save_to_memory]: the
    call returns normally, also for a state dict that holds the reserved
    key, and leaves the engine ([_cached_step] included) and the world as
    they were, so that it performs no operation at all: no lock
    operation, no collective call, no write to the region. *)
Theorem save_off_writer_is_noop (p : Process) (sd : StateDict)
    (conf : CheckpointShardConfig) (s : Z) (dir : string) :
  _local_rank (self p) <> local_shard_id (self p) ->
  save_state_dict_to_memory sd conf p = (inr tt, p)
  /\ save_to_memory s sd dir p = (inr tt, p)
  /\ new_effects (world p) (world (snd (save_to_memory s sd dir p))) = []
  /\ _cached_step (self (snd (save_to_memory s sd dir p)))
     = _cached_step (self p).
Proof.
  intros Hoff.
  split; [now apply save_off_writer |].
  unfold save_to_memory. rewrite (save_off_writer p sd _ Hoff).
  split; [reflexivity |]. split; [| reflexivity].
  apply new_effects_app. simpl. now rewrite app_nil_r.
Qed.

(** C8. For the writer of the shard, [save_state_dict_to_memory] raises
    exactly when the state dict holds the reserved key; the exception is
    the [ValueError], and it is raised before anything else is done: the
    engine and the world (lock, region, trace) are as before the call. *)
Theorem save_raises_iff_reserved_key (p : Process) (sd : StateDict)
    (conf : CheckpointShardConfig) :
  _local_rank (self p) = local_shard_id (self p) ->
  ((exists e, fst (save_state_dict_to_memory sd conf p) = inl e)
   <-> is_Some (sd !! DLROVER_CKPT_CONFIG_KEY))
  /\ (is_Some (sd !! DLROVER_CKPT_CONFIG_KEY) ->
      save_state_dict_to_memory sd conf p
      = (inl (ValueError ("The state_dict can not have the key "
                          +:+ DLROVER_CKPT_CONFIG_KEY +:+ ".")),
         p)).
Proof.
  intros Hwriter.
  split; [| now apply save_reserved_key]. split.
  - intros [e He].
    destruct (sd !! DLROVER_CKPT_CONFIG_KEY) as [v |] eqn:Hkey; [eauto |].
    rewrite (save_returns p sd conf Hwriter Hkey) in He. discriminate.
  - intros Hsome. rewrite (save_reserved_key p sd conf Hwriter Hsome).
    simpl. eauto.
Qed.

End Save.

Section SaveOutcome.
Context `{names : CkptSaverNames}.

(** What a skipped call leaves. *)
Lemma save_skip_outcome (p : Process) (sd : StateDict)
    (conf : CheckpointShardConfig) (acquired : bool) (w1 w2 : World) :
  _local_rank (self p) = local_shard_id (self p) ->
  sd !! DLROVER_CKPT_CONFIG_KEY = None ->
  SharedLock_acquire (_shm_lock (self p)) (world p) = (inr acquired, w1) ->
  check_all_rank_ready (_saver_group (self p)) acquired w1 = (inr false, w2) ->
  let r := save_state_dict_to_memory sd conf p in
  fst r = inr tt
  /\ self (snd r) = self p
  /\ regions (world (snd r)) = regions (world p)
  /\ (forall n, locks (world (snd r)) n = locks (world p) n)
  /\ new_effects (world p) (world (snd r))
     = [LockAcquire (_shm_lock (self p)) acquired]
       ++ match _saver_group (self p) with
          | Some g => [AllReduce g (vote_value acquired)]
          | None => []
          end
       ++ (if acquired then [LockRelease (_shm_lock (self p))] else []).
Proof.
  intros Hwriter Hkey Hacq Hcheck r. subst r.
  rewrite (save_skip p sd conf acquired w1 w2 Hwriter Hkey Hacq Hcheck).
  destruct (acquire_result (_shm_lock (self p)) (world p))
    as (w1' & Hacq' & Ht1 & Hr1 & _ & _ & Hl1 & Hl1').
  rewrite Hacq in Hacq'. injection Hacq' as Hvote <-.
  rewrite <- Hvote in Ht1. symmetry in Hvote.
  destruct (check_result (_saver_group (self p)) acquired w1)
    as (b & w2' & Hcheck' & Ht2 & Hr2 & Hl2 & _).
  rewrite Hcheck in Hcheck'. injection Hcheck' as <- <-.
  simpl. split; [reflexivity |]. split; [reflexivity |].
  split; [| split].
  - destruct acquired; simpl; congruence.
  - intros n. destruct acquired; simpl.
    + destruct (String.eqb_spec n (_shm_lock (self p))) as [-> | Hn].
      * symmetry. now apply negb_true_iff.
      * rewrite Hl2. now apply Hl1'.
    + rewrite Hl2.
      destruct (String.eqb_spec n (_shm_lock (self p))) as [-> | Hn].
      * rewrite Hl1. symmetry. now apply negb_false_iff.
      * now apply Hl1'.
  - apply new_effects_app.
    destruct acquired; simpl; rewrite Ht2, Ht1, <- !app_assoc;
      try rewrite app_nil_r; reflexivity.
Qed.

(** What a committed call leaves. *)
Lemma save_commit_outcome (p : Process) (sd : StateDict)
    (conf : CheckpointShardConfig) (acquired : bool) (w1 w2 : World) :
  _local_rank (self p) = local_shard_id (self p) ->
  sd !! DLROVER_CKPT_CONFIG_KEY = None ->
  SharedLock_acquire (_shm_lock (self p)) (world p) = (inr acquired, w1) ->
  check_all_rank_ready (_saver_group (self p)) acquired w1 = (inr true, w2) ->
  let r := save_state_dict_to_memory sd conf p in
  fst r = inr tt
  /\ self (snd r) = set_cached_step (step conf) (self p)
  /\ regions (world (snd r)) (_shm_handler (self p))
     = {| region_config := Some conf; region_state := sd |}
  /\ new_effects (world p) (world (snd r))
     = [LockAcquire (_shm_lock (self p)) acquired]
       ++ match _saver_group (self p) with
          | Some g => [AllReduce g (vote_value acquired)]
          | None => []
          end
       ++ [ShmSave (_shm_handler (self p)) conf sd]
       ++ (if acquired then [LockRelease (_shm_lock (self p))] else [])
       ++ (if dist_is_initialized (world p)
           then [Barrier (_saver_group (self p))] else []).
Proof.
  intros Hwriter Hkey Hacq Hcheck r. subst r.
  rewrite (save_commit p sd conf acquired w1 w2 Hwriter Hkey Hacq Hcheck).
  destruct (acquire_result (_shm_lock (self p)) (world p))
    as (w1' & Hacq' & Ht1 & Hr1 & Hd1 & _).
  rewrite Hacq in Hacq'. injection Hacq' as Hvote <-.
  rewrite <- Hvote in Ht1.
  destruct (check_result (_saver_group (self p)) acquired w1)
    as (b & w2' & Hcheck' & Ht2 & Hr2 & Hl2 & Hd2).
  rewrite Hcheck in Hcheck'. injection Hcheck' as <- <-.
  simpl. split; [reflexivity |]. split; [reflexivity |].
  rewrite Hd2, Hd1. split.
  - destruct acquired, (dist_is_initialized (world p)); simpl;
      now rewrite Z.eqb_refl.
  - apply new_effects_app.
    destruct acquired, (dist_is_initialized (world p)); simpl;
      rewrite Ht2, Ht1, <- !app_assoc; try rewrite app_nil_r; reflexivity.
Qed.

End SaveOutcome.

(** ** A group of writers saving together *)

Lemma map_seq_nth {A B} (P : list A) (f : nat -> B) (h : A -> B) :
  forall k,
    (forall j q, nth_error P j = Some q -> f (k + j)%nat = h q) ->
    map f (seq k (length P)) = map h P.
Proof.
  induction P as [| a P IH]; intros k Hf; simpl; [reflexivity |].
  f_equal.
  - rewrite <- (Hf 0%nat a eq_refl). f_equal. lia.
  - apply IH. intros j q Hj.
    rewrite <- (Hf (S j) q Hj). f_equal. lia.
Qed.

(** Heard by a member, the group contributes the values of the votes. *)
Lemma heard_contributions (P : list Process) (i : nat) (p : Process) :
  nth_error P i = Some p ->
  contributions {| pg_rank := i; pg_size := length P |}
    (vote_value (vote p)) (peer_int64 (world (hear P p)))
  = map vote_value (map vote P).
Proof.
  intros Hi. unfold contributions. simpl. rewrite map_map.
  apply map_seq_nth. intros j q Hj. simpl.
  destruct (Nat.eqb_spec j i) as [-> | _].
  - congruence.
  - now rewrite Hj.
Qed.

Section Cluster.
Context `{names : CkptSaverNames}.

Lemma members_from_nth (n : nat) (ranks : list (Process * StateDict)) :
  forall k i m,
    members_from n k ranks = true ->
    nth_error ranks i = Some m ->
    reaches_collective n (k + i) m = true.
Proof.
  induction ranks as [| m0 ranks IH]; intros k i m Hall Hi.
  - destruct i; discriminate.
  - simpl in Hall. apply andb_true_iff in Hall as [Hm0 Hrest].
    destruct i as [| i]; simpl in Hi.
    + injection Hi as <-. now rewrite Nat.add_0_r.
    + rewrite Nat.add_succ_r. apply (IH (S k) i m Hrest Hi).
Qed.

(** When one member of a group in lock step cannot take its lock, the
    check fails in every member. *)
Lemma disagreement_everywhere (ranks : list (Process * StateDict))
    (i : nat) (m : Process * StateDict) (w1 : World) :
  in_lock_step ranks = true ->
  Z.of_nat (length ranks) < 2 ^ 63 ->
  Exists (fun m => vote (fst m) = false) ranks ->
  nth_error ranks i = Some m ->
  peer_int64 w1 = peer_int64 (world (hear (map fst ranks) (fst m))) ->
  exists w2,
    check_all_rank_ready (_saver_group (self (fst m))) (vote (fst m)) w1
    = (inr false, w2).
Proof.
  intros Hstep Hlen Hheld Hi Hpeers.
  pose proof (members_from_nth _ ranks 0 i m Hstep Hi) as Hm.
  unfold reaches_collective in Hm. simpl in Hm.
  apply andb_true_iff in Hm as [_ Hg].
  destruct (_saver_group (self (fst m))) as [g |]; [| discriminate].
  apply andb_true_iff in Hg as [Hrank Hsize].
  apply Nat.eqb_eq in Hrank, Hsize.
  destruct g as [gr gs]. simpl in Hrank, Hsize. subst gr gs.
  eexists. simpl. unfold dist_all_reduce, bind, ret. simpl.
  f_equal. f_equal.
  change (if vote (fst m) then 0 else 1) with (vote_value (vote (fst m))).
  rewrite Hpeers.
  rewrite <- (length_map fst ranks).
  rewrite heard_contributions by (now rewrite nth_error_map, Hi).
  destruct (sum_int64 (map vote_value (map vote (map fst ranks))) =? 0)
    eqn:E; [| reflexivity].
  apply sum_votes_zero in E; [| now rewrite !length_map].
  exfalso. apply List.Exists_exists in Hheld as (m' & Hin & Hv).
  rewrite List.Forall_forall in E.
  rewrite (E (vote (fst m'))) in Hv; [discriminate |].
  apply in_map, in_map. exact Hin.
Qed.

(** C1. When [check_all_rank_ready], given the result of the attempt to
    take the lock, returns false, [save_state_dict_to_memory] returns
    normally after the attempt, the collective call of the check and, if
    and only if the lock was taken, its release: the region and the engine
    ([_cached_step] included) are as before, and so is every lock.
    Consequently, when the writers of a group of less than 2^63 members
    call it together and one of them cannot take its lock, the region of
    every member is as before: none holds the new step. *)
Theorem save_skips_on_disagreement :
  (forall (p : Process) (sd : StateDict) (conf : CheckpointShardConfig)
          (acquired : bool) (w1 w2 : World),
      _local_rank (self p) = local_shard_id (self p) ->
      sd !! DLROVER_CKPT_CONFIG_KEY = None ->
      SharedLock_acquire (_shm_lock (self p)) (world p) = (inr acquired, w1) ->
      check_all_rank_ready (_saver_group (self p)) acquired w1
      = (inr false, w2) ->
      let r := save_state_dict_to_memory sd conf p in
      fst r = inr tt
      /\ self (snd r) = self p
      /\ regions (world (snd r)) = regions (world p)
      /\ (forall n, locks (world (snd r)) n = locks (world p) n)
      /\ new_effects (world p) (world (snd r))
         = [LockAcquire (_shm_lock (self p)) acquired]
           ++ match _saver_group (self p) with
              | Some g => [AllReduce g (vote_value acquired)]
              | None => []
              end
           ++ (if acquired then [LockRelease (_shm_lock (self p))] else []))
  /\ (forall (ranks : list (Process * StateDict))
             (conf : CheckpointShardConfig) (i : nat)
             (m : Process * StateDict) (r : (Exception + unit) * Process),
        in_lock_step ranks = true ->
        Z.of_nat (length ranks) < 2 ^ 63 ->
        Exists (fun m => vote (fst m) = false) ranks ->
        nth_error ranks i = Some m ->
        nth_error (collective_save ranks conf) i = Some r ->
        fst r = inr tt
        /\ self (snd r) = self (fst m)
        /\ regions (world (snd r)) = regions (world (fst m))
        /\ filter (fun e => is_ShmSave e = true)
             (new_effects (world (fst m)) (world (snd r))) = []).
Proof.
  split; [exact save_skip_outcome |].
  intros ranks conf i m r Hstep Hlen Hheld Hi Hr.
  unfold collective_save in Hr. rewrite nth_error_map, Hi in Hr.
  injection Hr as <-.
  set (p := hear (map fst ranks) (fst m)).
  pose proof (members_from_nth _ ranks 0 i m Hstep Hi) as Hm.
  unfold reaches_collective in Hm. simpl in Hm.
  apply andb_true_iff in Hm as [Hm _].
  apply andb_true_iff in Hm as [Hwriter Hkey].
  apply Z.eqb_eq in Hwriter.
  destruct (snd m !! DLROVER_CKPT_CONFIG_KEY) eqn:Hk; [discriminate |].
  destruct (acquire_result (_shm_lock (self p)) (world p))
    as (w1 & Hacq & _ & _ & _ & Hp1 & _).
  destruct (disagreement_everywhere ranks i m w1 Hstep Hlen Hheld Hi Hp1)
    as (w2 & Hcheck).
  destruct (save_skip_outcome p (snd m) conf _ w1 w2 Hwriter Hk Hacq Hcheck)
    as (Hres & Hself & Hreg & _ & Hnew).
  split; [exact Hres |]. split; [exact Hself |]. split; [exact Hreg |].
  replace (new_effects (world (fst m))
             (world (snd (save_state_dict_to_memory (snd m) conf p))))
    with (new_effects (world p)
            (world (snd (save_state_dict_to_memory (snd m) conf p))))
    by reflexivity.
  rewrite Hnew.
  destruct (negb (locks (world p) (_shm_lock (self p))));
    destruct (_saver_group (self p)); reflexivity.
Qed.

End Cluster.

Section Commit.
Context `{names : CkptSaverNames}.

(** C2, as the code has it.  When the agreement check passes in a sound
    group, the lock was taken by this call, and the call performs, after
    the attempt and the collective call of the check: the write of the
    config and of the state dict into the region, then the release of the
    lock, then, only when [torch.distributed] is initialized, the barrier
    over the saver group; [_cached_step] is the step of the call.  Nothing
    else is performed. *)
Theorem save_commits_in_order (p : Process) (sd : StateDict)
    (conf : CheckpointShardConfig) (acquired : bool) (w1 w2 : World) :
  _local_rank (self p) = local_shard_id (self p) ->
  sd !! DLROVER_CKPT_CONFIG_KEY = None ->
  sound_group (_saver_group (self p)) (world p) ->
  SharedLock_acquire (_shm_lock (self p)) (world p) = (inr acquired, w1) ->
  check_all_rank_ready (_saver_group (self p)) acquired w1 = (inr true, w2) ->
  let r := save_state_dict_to_memory sd conf p in
  fst r = inr tt
  /\ acquired = true
  /\ locks (world p) (_shm_lock (self p)) = false
  /\ new_effects (world p) (world (snd r))
     = [LockAcquire (_shm_lock (self p)) true]
       ++ match _saver_group (self p) with
          | Some g => [AllReduce g 0]
          | None => []
          end
       ++ [ShmSave (_shm_handler (self p)) conf sd;
           LockRelease (_shm_lock (self p))]
       ++ (if dist_is_initialized (world p)
           then [Barrier (_saver_group (self p))] else [])
  /\ self (snd r) = set_cached_step (step conf) (self p)
  /\ _cached_step (self (snd r)) = step conf
  /\ regions (world (snd r)) (_shm_handler (self p))
     = {| region_config := Some conf; region_state := sd |}.
Proof.
  intros Hwriter Hkey Hsound Hacq Hcheck r.
  destruct (save_commit_outcome p sd conf acquired w1 w2
              Hwriter Hkey Hacq Hcheck) as (Hres & Hself & Hreg & Hnew).
  fold r in Hres, Hself, Hreg, Hnew.
  destruct (acquire_result (_shm_lock (self p)) (world p))
    as (w1' & Hacq' & _ & _ & _ & Hp1 & _).
  rewrite Hacq in Hacq'. injection Hacq' as Hvote <-.
  assert (Htaken : acquired = true).
  { destruct (_saver_group (self p)) as [g |] eqn:Hg.
    - destruct Hsound as (Hrank & Hsize & Hpeers).
      apply (check_passes_own_vote g acquired w1 Hrank Hsize).
      + intros i. rewrite Hp1. apply Hpeers.
      + now rewrite Hcheck.
    - simpl in Hcheck. now injection Hcheck as ->. }
  rewrite Htaken in Hnew.
  split; [exact Hres |]. split; [exact Htaken |].
  split; [apply negb_true_iff; congruence |].
  split; [exact Hnew |]. split; [exact Hself |].
  split; [now rewrite Hself | exact Hreg].
Qed.

(** C2 fails where [torch.distributed] is not initialized: the call of a
    single process commits (the lock is taken, the region is written, the
    lock is released, [_cached_step] is set) and executes no barrier. *)
Lemma save_commits_without_barrier :
  let r := @save_state_dict_to_memory example_names state_w conf5 process0 in
  fst (check_all_rank_ready (_saver_group engine0) true world0) = inr true
  /\ fst r = inr tt
  /\ _cached_step (self (snd r)) = 5
  /\ new_effects world0 (world (snd r))
     = [LockAcquire "shm_local_rank_0" true;
        ShmSave 0 conf5 state_w;
        LockRelease "shm_local_rank_0"]
  /\ forall g, ~ In (Barrier g) (new_effects world0 (world (snd r))).
Proof.
  cbv zeta. repeat split; try (vm_compute; reflexivity).
  intros g Hin.
  assert (Hnew : new_effects world0
            (world (snd (@save_state_dict_to_memory example_names
                           state_w conf5 process0)))
          = [LockAcquire "shm_local_rank_0" true;
             ShmSave 0 conf5 state_w;
             LockRelease "shm_local_rank_0"])
    by (vm_compute; reflexivity).
  rewrite Hnew in Hin. simpl in Hin.
  destruct Hin as [H | [H | [H | []]]]; discriminate.
Qed.

(** ** The stored step *)

(** What a call of [save_to_memory] does to the stored step. *)
Lemma save_to_memory_step (p : Process) (s : Z) (sd : StateDict)
    (dir : string) :
  let r := save_to_memory s sd dir p in
  let shard := _shm_handler (self p) in
  _shm_handler (self (snd r)) = shard
  /\ ((existsb is_ShmSave (new_effects (world p) (world (snd r))) = true
       /\ fst r = inr tt
       /\ stored_step shard (world (snd r)) = s
       /\ _cached_step (self (snd r)) = s)
      \/ (existsb is_ShmSave (new_effects (world p) (world (snd r))) = false
          /\ regions (world (snd r)) = regions (world p)
          /\ _cached_step (self (snd r)) = _cached_step (self p))).
Proof.
  intros r shard. subst r shard. unfold save_to_memory.
  set (conf := SingleFileCheckpointConfig s dir).
  destruct (Z.eq_dec (_local_rank (self p)) (local_shard_id (self p)))
    as [Hwriter | Hoff].
  - destruct (sd !! DLROVER_CKPT_CONFIG_KEY) as [v |] eqn:Hkey.
    + rewrite (save_reserved_key p sd conf Hwriter)
        by (rewrite Hkey; eauto).
      simpl.
      split; [reflexivity |]. right.
      rewrite (new_effects_app _ _ []) by (now rewrite app_nil_r).
      now repeat split.
    + destruct (acquire_result (_shm_lock (self p)) (world p))
        as (w1 & Hacq & _).
      destruct (check_result (_saver_group (self p))
                  (negb (locks (world p) (_shm_lock (self p)))) w1)
        as (b & w2 & Hcheck & _).
      destruct b.
      * destruct (save_commit_outcome p sd conf _ w1 w2
                    Hwriter Hkey Hacq Hcheck)
          as (Hres & Hself & Hreg & Hnew).
        split; [now rewrite Hself |]. left.
        rewrite Hnew, Hself. unfold stored_step. rewrite Hreg.
        split; [| now repeat split].
        destruct (negb (locks (world p) (_shm_lock (self p))));
          destruct (_saver_group (self p)); reflexivity.
      * destruct (save_skip_outcome p sd conf _ w1 w2
                    Hwriter Hkey Hacq Hcheck)
          as (Hres & Hself & Hreg & _ & Hnew).
        split; [now rewrite Hself |]. right.
        rewrite Hnew, Hself. split; [| now split].
        destruct (negb (locks (world p) (_shm_lock (self p))));
          destruct (_saver_group (self p)); reflexivity.
  - rewrite (save_off_writer p sd conf Hoff).
    simpl. split; [reflexivity |]. right.
    rewrite (new_effects_app _ _ []) by (now rewrite app_nil_r).
    now repeat split.
Qed.

Lemma chain_from_weaken (x y : Z) (l : list Z) :
  x <= y -> chain_from y l -> chain_from x l.
Proof.
  destruct l as [| z l]; simpl; [trivial |].
  intros Hxy [Hyz Hl]. split; [lia | exact Hl].
Qed.

(** The result of the agreement check depends on the world only through
    what the other members contribute. *)
Lemma check_same_peers (group : option ProcessGroup) (ready : bool)
    (w w1 : World) :
  peer_int64 w1 = peer_int64 w ->
  fst (check_all_rank_ready group ready w1)
  = fst (check_all_rank_ready group ready w).
Proof.
  intros Hpeers. destruct group as [g |]; simpl; [| reflexivity].
  now rewrite Hpeers.
Qed.

(** When a call of [save_to_memory] writes: in the writer of the shard,
    on a state dict free of the reserved key, when the agreement check
    passes on the result of the attempt to take the lock; the step, the
    path and [_cached_step] have no part in it. *)
Lemma save_to_memory_writes_iff (p : Process) (s : Z) (sd : StateDict)
    (dir : string) :
  existsb is_ShmSave
    (new_effects (world p) (world (snd (save_to_memory s sd dir p)))) = true
  <-> _local_rank (self p) = local_shard_id (self p)
      /\ sd !! DLROVER_CKPT_CONFIG_KEY = None
      /\ fst (check_all_rank_ready (_saver_group (self p))
                (negb (locks (world p) (_shm_lock (self p)))) (world p))
         = inr true.
Proof.
  unfold save_to_memory.
  set (conf := SingleFileCheckpointConfig s dir).
  destruct (Z.eq_dec (_local_rank (self p)) (local_shard_id (self p)))
    as [Hwriter | Hoff].
  - destruct (sd !! DLROVER_CKPT_CONFIG_KEY) as [v |] eqn:Hkey.
    + rewrite (save_reserved_key p sd conf Hwriter)
        by (rewrite Hkey; eauto).
      simpl.
      rewrite (new_effects_app _ _ []) by (now rewrite app_nil_r).
      simpl. split; [discriminate | intros (_ & H & _); discriminate].
    + destruct (acquire_result (_shm_lock (self p)) (world p))
        as (w1 & Hacq & _ & _ & _ & Hp1 & _).
      destruct (check_result (_saver_group (self p))
                  (negb (locks (world p) (_shm_lock (self p)))) w1)
        as (b & w2 & Hcheck & _).
      rewrite <- (check_same_peers _ _ (world p) w1 Hp1), Hcheck. simpl.
      destruct b.
      * destruct (save_commit_outcome p sd conf _ w1 w2
                    Hwriter Hkey Hacq Hcheck) as (_ & _ & _ & Hnew).
        rewrite Hnew. split; [now repeat split |]. intros _.
        destruct (negb (locks (world p) (_shm_lock (self p))));
          destruct (_saver_group (self p)); reflexivity.
      * destruct (save_skip_outcome p sd conf _ w1 w2
                    Hwriter Hkey Hacq Hcheck) as (_ & _ & _ & _ & Hnew).
        rewrite Hnew. split; [| intros (_ & _ & H); discriminate].
        destruct (negb (locks (world p) (_shm_lock (self p))));
          destruct (_saver_group (self p)); discriminate.
  - rewrite (save_off_writer p sd conf Hoff). simpl.
    rewrite (new_effects_app _ _ []) by (now rewrite app_nil_r).
    simpl. split; [discriminate | intros (H & _); contradiction].
Qed.

(** C6, as the code has it.  A call of [save_to_memory] writes the region
    exactly when the process is the writer of its shard, the state dict
    is free of the reserved key and the agreement check passes: neither
    the step of the call nor [_cached_step] has a part in it, so no call
    is refused for its step.  A call that writes stores the step of the
    call, in the region and in [_cached_step], whatever the last cached
    step is; a call that does not write leaves the stored step and
    [_cached_step] as they are.  So the stored step never decreases
    along a training loop whose steps never decrease, starting at or
    above the stored step. *)
Theorem stored_step_follows_caller :
  (forall (p : Process) (s : Z) (sd : StateDict) (dir : string),
      existsb is_ShmSave
        (new_effects (world p) (world (snd (save_to_memory s sd dir p))))
      = true
      <-> _local_rank (self p) = local_shard_id (self p)
          /\ sd !! DLROVER_CKPT_CONFIG_KEY = None
          /\ fst (check_all_rank_ready (_saver_group (self p))
                    (negb (locks (world p) (_shm_lock (self p)))) (world p))
             = inr true)
  /\ (forall (p : Process) (s : Z) (sd : StateDict) (dir : string),
      let r := save_to_memory s sd dir p in
      let shard := _shm_handler (self p) in
      (existsb is_ShmSave (new_effects (world p) (world (snd r))) = true
       /\ fst r = inr tt
       /\ stored_step shard (world (snd r)) = s
       /\ _cached_step (self (snd r)) = s)
      \/ (existsb is_ShmSave (new_effects (world p) (world (snd r))) = false
          /\ stored_step shard (world (snd r)) = stored_step shard (world p)
          /\ _cached_step (self (snd r)) = _cached_step (self p)))
  /\ (forall (calls : list (Z * StateDict * string)) (p : Process),
        let shard := _shm_handler (self p) in
        chain_from (stored_step shard (world p))
          (map (fun c => fst (fst c)) calls) ->
        chain_from (stored_step shard (world p))
          (stored_steps shard calls p)).
Proof.
  split; [exact save_to_memory_writes_iff |].
  split.
  - intros p s sd dir.
    destruct (save_to_memory_step p s sd dir) as [_ [H | (H1 & H2 & H3)]].
    + left. exact H.
    + right. unfold stored_step. rewrite H2. now repeat split.
  - intros calls. induction calls as [| [[s sd] dir] calls IH];
      intros p shard Hchain; [exact I |].
    simpl in Hchain. destruct Hchain as [Hle Hchain]. simpl.
    pose proof (IH (snd (save_to_memory s sd dir p))) as IH'.
    cbv zeta in IH'.
    destruct (save_to_memory_step p s sd dir)
      as [Hshard [(_ & _ & Hs & _) | (_ & Hreg & _)]];
      rewrite Hshard in IH'; fold shard in IH'.
    + fold shard in Hs. rewrite Hs in IH' |- *.
      split; [exact Hle | now apply IH'].
    + assert (Hsame : stored_step shard
                        (world (snd (save_to_memory s sd dir p)))
                      = stored_step shard (world p))
        by (unfold stored_step; now rewrite Hreg).
      rewrite Hsame in IH' |- *. split; [lia |].
      apply IH'. now apply (chain_from_weaken _ s).
Qed.

(** C6 fails on a loop that goes back: after [save_to_memory] with step 5,
    a call with step 3, below the cached step, is not rejected; it
    writes, and the stored step goes from 5 down to 3. *)
Lemma stored_step_decreases :
  let r1 := @save_to_memory example_names 5 state_w "" process0 in
  let r2 := @save_to_memory example_names 3 state_w "" (snd r1) in
  fst r1 = inr tt
  /\ stored_step 0 (world (snd r1)) = 5
  /\ _cached_step (self (snd r1)) = 5
  /\ 3 < _cached_step (self (snd r1))
  /\ fst r2 = inr tt
  /\ existsb is_ShmSave (new_effects (world (snd r1)) (world (snd r2))) = true
  /\ stored_step 0 (world (snd r2)) = 3
  /\ stored_step 0 (world (snd r2)) < stored_step 0 (world (snd r1)).
Proof.
  cbv zeta. repeat split; vm_compute; reflexivity.
Qed.

End Commit.

(** ** get_state_dict_from_memory *)

(** The step check reads only the contributions of the group. *)
Lemma verify_after_emit (group : option ProcessGroup) (s : Z)
    (e : Effect) (w : World) :
  fst (verify_all_rank_step_consistent group s (emit e w))
  = fst (verify_all_rank_step_consistent group s w).
Proof.
  destruct group as [g |]; [| reflexivity].
  unfold verify_all_rank_step_consistent, bind, of_result.
  destruct (tensor_of_step s); reflexivity.
Qed.

Lemma verify_keeps_regions (group : option ProcessGroup) (s : Z) (w : World) :
  regions (snd (verify_all_rank_step_consistent group s w)) = regions w.
Proof.
  destruct group as [g |]; [| reflexivity].
  unfold verify_all_rank_step_consistent, bind, of_result.
  destruct (tensor_of_step s); reflexivity.
Qed.

(** C4. [get_state_dict_from_memory] returns the empty dict when the step
    of the header is 0; it returns the empty dict when
    [verify_all_rank_step_consistent], on the group and the staged step,
    returns false; otherwise (the check returns true) it returns the
    payload that the handler loads.  So whenever the check returns false
    on the staged step, the call returns the empty dict. *)
Theorem get_state_dict_from_memory_spec (p : Process) :
  let shard := _shm_handler (self p) in
  let config :=
    match region_config (regions (world p) shard) with
    | Some c => c
    | None => default_CheckpointShardConfig
    end in
  let w1 := emit (ShmGetConfig shard) (world p) in
  (step config = 0 ->
   get_state_dict_from_memory p = (inr ∅, {| self := self p; world := w1 |}))
  /\ (forall w2,
        step config <> 0 ->
        verify_all_rank_step_consistent (_saver_group (self p)) (step config) w1
        = (inr false, w2) ->
        get_state_dict_from_memory p
        = (inr ∅, {| self := self p; world := w2 |}))
  /\ (forall w2,
        step config <> 0 ->
        verify_all_rank_step_consistent (_saver_group (self p)) (step config) w1
        = (inr true, w2) ->
        get_state_dict_from_memory p
        = (inr (region_state (regions (world p) shard)),
           {| self := self p; world := emit (ShmLoad shard) w2 |}))
  /\ (fst (verify_all_rank_step_consistent
             (_saver_group (self p)) (step config) (world p)) = inr false ->
      fst (get_state_dict_from_memory p) = inr ∅).
Proof.
  intros shard config w1.
  assert (Hzero : step config = 0 ->
            get_state_dict_from_memory p
            = (inr ∅, {| self := self p; world := w1 |})).
  { intros Hstep.
    unfold get_state_dict_from_memory, bind, get_self, on_world. simpl.
    fold shard. fold config. now rewrite Hstep. }
  assert (Hfalse : forall w2, step config <> 0 ->
            verify_all_rank_step_consistent
              (_saver_group (self p)) (step config) w1 = (inr false, w2) ->
            get_state_dict_from_memory p
            = (inr ∅, {| self := self p; world := w2 |})).
  { intros w2 Hstep Hcheck.
    unfold get_state_dict_from_memory, bind, get_self, on_world. simpl.
    fold shard. fold config. apply Z.eqb_neq in Hstep. rewrite Hstep.
    fold w1. cbn [world self]. now rewrite Hcheck. }
  split; [exact Hzero |]. split; [exact Hfalse |]. split.
  - intros w2 Hstep Hcheck.
    pose proof (verify_keeps_regions (_saver_group (self p)) (step config) w1)
      as Hreg. rewrite Hcheck in Hreg. simpl in Hreg.
    unfold get_state_dict_from_memory, bind, get_self, on_world. simpl.
    fold shard. fold config. apply Z.eqb_neq in Hstep. rewrite Hstep.
    fold w1. cbn [world self]. rewrite Hcheck. cbn [world self].
    now rewrite Hreg.
  - intros Hcheck.
    destruct (Z.eq_dec (step config) 0) as [Hstep | Hstep].
    + now rewrite (Hzero Hstep).
    + rewrite <- (verify_after_emit _ _ (ShmGetConfig shard)) in Hcheck.
      fold w1 in Hcheck.
      destruct (verify_all_rank_step_consistent
                  (_saver_group (self p)) (step config) w1)
        as [res w2] eqn:E.
      simpl in Hcheck. subst res.
      now rewrite (Hfalse w2 Hstep eq_refl).
Qed.

(** ** The constructor *)

Lemma bootstrap_sent_app (l1 l2 : list Effect) :
  bootstrap_sent (l1 ++ l2) = (bootstrap_sent l1 + bootstrap_sent l2)%nat.
Proof. unfold bootstrap_sent. now rewrite filter_app, length_app. Qed.

Lemma new_effects_trans (w w' w'' : World) (l1 l2 : list Effect) :
  trace w' = trace w ++ l1 ->
  trace w'' = trace w' ++ l2 ->
  trace w'' = trace w ++ (l1 ++ l2).
Proof. intros H1 H2. now rewrite H2, H1, app_assoc. Qed.


Section Init.
Context `{names : CkptSaverNames} `{impl : CheckpointEngineImpl}.

(** The operations of a constructor that gets past the computation of the
    shard: local rank 0 releases the lock on a restart and sends the
    descriptor otherwise, then puts the event on its queue, which it has
    only when its global rank is 0. *)
Lemma init_effects (env : Environ) (dir : string) (w : World) :
  get_local_shard_num <> 0 ->
  let rank := if dist_is_initialized w then dist_get_rank w else 0 in
  let r := __init__ env dir w in
  trace (snd r)
  = trace w
    ++ (if default 0 (LOCAL_RANK env) =? 0 then
          (if torch_restart_count env >? 0
           then [LockRelease (lock_name_of env)]
           else [QueuePut "factory" (MsgClassMeta (descriptor dir));
                 QueueUnlink "factory"])
          ++ (if rank =? 0
              then [QueuePut (SAVE_STEP_QNAME +:+ pretty 0)
                      (MsgEvent update_shard_event)]
              else [])
        else [])
  /\ (default 0 (LOCAL_RANK env) = 0 -> rank <> 0 ->
      fst r = inl AttributeError)
  /\ (default 0 (LOCAL_RANK env) = 0 -> rank = 0 ->
      exists engine, fst r = inr engine)
  /\ (default 0 (LOCAL_RANK env) = 0 -> torch_restart_count env > 0 ->
      locks (snd r) (lock_name_of env) = false).
Proof.
  intros Hshards rank r. subst r. unfold __init__.
  apply Z.eqb_neq in Hshards. rewrite Hshards.
  unfold _notify_agent_to_create_saver, _update_saver_config,
    bind, get_self, on_world, ret, raise, lock_name_of,
    descriptor, update_shard_event.
  fold rank. simpl.
  destruct (default 0 (LOCAL_RANK env) =? 0) eqn:Hlr; simpl.
  - destruct (torch_restart_count env >? 0) eqn:Hrc; simpl;
      destruct (rank =? 0) eqn:Hrank; simpl;
      repeat (rewrite ?Hlr, ?Hrc, ?Hrank; simpl);
      rewrite <- ?app_assoc; simpl;
      (split; [reflexivity |]);
      (split; [intros _ Hne; try reflexivity;
               apply Z.eqb_eq in Hrank; contradiction |]);
      (split; [intros _ Heq; try (eexists; reflexivity);
               apply Z.eqb_neq in Hrank; contradiction |]);
      intros _ Hpos; try (now rewrite String.eqb_refl);
      rewrite Z.gtb_ltb in Hrc; apply Z.ltb_ge in Hrc; lia.
  - repeat (rewrite ?Hlr; simpl).
    rewrite app_nil_r. split; [reflexivity |].
    apply Z.eqb_neq in Hlr. repeat split; intros; contradiction.
Qed.

Lemma init_bootstrap_sent (env : Environ) (dir : string) (w : World) :
  get_local_shard_num <> 0 ->
  exists l,
    trace (snd (__init__ env dir w)) = trace w ++ l
    /\ bootstrap_sent l
       = if (default 0 (LOCAL_RANK env) =? 0)
            && negb (torch_restart_count env >? 0)
         then 1%nat else 0%nat.
Proof.
  intros Hshards.
  destruct (init_effects env dir w Hshards) as (Htrace & _).
  eexists. split; [exact Htrace |].
  destruct (default 0 (LOCAL_RANK env) =? 0); [| reflexivity].
  destruct (torch_restart_count env >? 0);
    destruct ((if dist_is_initialized w then dist_get_rank w else 0) =? 0);
    reflexivity.
Qed.

(** Restarts with positive counts send no descriptor. *)
Lemma restarts_positive (lr : option Z) (dir : string) (counts : list Z) :
  get_local_shard_num <> 0 ->
  Forall (fun c => 0 < c) counts ->
  forall w, exists l,
    trace (restarts lr dir counts w) = trace w ++ l /\ bootstrap_sent l = 0%nat.
Proof.
  intros Hshards Hpos. induction Hpos as [| c counts Hc _ IH]; intros w.
  - exists []. simpl. now rewrite app_nil_r.
  - simpl.
    destruct (init_bootstrap_sent
                {| LOCAL_RANK := lr; torch_restart_count := c |} dir w Hshards)
      as (l1 & Ht1 & Hs1).
    destruct (IH (snd (__init__
                         {| LOCAL_RANK := lr; torch_restart_count := c |}
                         dir w)))
      as (l2 & Ht2 & Hs2).
    exists (l1 ++ l2). split; [now apply (new_effects_trans _ _ _ _ _ Ht1) |].
    rewrite bootstrap_sent_app, Hs1, Hs2. simpl.
    destruct (c >? 0) eqn:E; [| rewrite Z.gtb_ltb in E; apply Z.ltb_ge in E; lia].
    now rewrite andb_false_r.
Qed.

Lemma seq_positive (n : nat) :
  Forall (fun c => 0 < c) (map Z.of_nat (seq 1 n)).
Proof.
  apply List.Forall_forall. intros c Hin.
  apply in_map_iff in Hin as (k & <- & Hk). apply in_seq in Hk. lia.
Qed.

(** C5. In a construction that gets past the computation of the shard
    (the number of local shards is not 0), with a restart count that is
    not negative, the bootstrap descriptor is sent, once, if and only if
    the local rank is 0 and the restart count is 0.  With local rank 0
    and a positive restart count the constructor releases the lock, which
    is then free, and sends no descriptor.  So a process of local rank 0
    that is constructed with the restart counts 0, 1, ..., n sends the
    descriptor exactly once. *)
Theorem bootstrap_descriptor_sent_once :
  (forall (env : Environ) (dir : string) (w : World),
      get_local_shard_num <> 0 ->
      0 <= torch_restart_count env ->
      let w' := snd (__init__ env dir w) in
      (In (QueuePut "factory" (MsgClassMeta (descriptor dir)))
          (new_effects w w')
       <-> default 0 (LOCAL_RANK env) = 0 /\ torch_restart_count env = 0)
      /\ bootstrap_sent (new_effects w w')
         = (if (default 0 (LOCAL_RANK env) =? 0)
               && (torch_restart_count env =? 0)
            then 1%nat else 0%nat)
      /\ (default 0 (LOCAL_RANK env) = 0 -> 0 < torch_restart_count env ->
          In (LockRelease (lock_name_of env)) (new_effects w w')
          /\ locks w' (lock_name_of env) = false
          /\ bootstrap_sent (new_effects w w') = 0%nat))
  /\ (forall (lr : option Z) (dir : string) (w : World) (n : nat),
        get_local_shard_num <> 0 ->
        default 0 lr = 0 ->
        bootstrap_sent
          (new_effects w
             (restarts lr dir (map Z.of_nat (seq 0 (S n))) w))
        = 1%nat).
Proof.
  split.
  - intros env dir w Hshards Hrc w'.
    destruct (init_effects env dir w Hshards) as (Htrace & _ & _ & Hlock).
    fold w' in Htrace, Hlock.
    rewrite (new_effects_app _ _ _ Htrace).
    destruct (Z.eqb_spec (default 0 (LOCAL_RANK env)) 0) as [Hlr | Hlr];
      simpl.
    + destruct (torch_restart_count env >? 0) eqn:Hgt.
      * assert (Hpos : 0 < torch_restart_count env)
          by (apply Z.gtb_lt in Hgt; lia).
        destruct (Z.eqb_spec (torch_restart_count env) 0) as [H0 | _];
          [lia |].
        split; [| split].
        -- split; [| lia]. simpl.
           destruct ((if dist_is_initialized w then dist_get_rank w else 0)
                     =? 0); simpl; intros [H | H]; try discriminate;
             try contradiction.
           destruct H as [H | []]. discriminate.
        -- destruct ((if dist_is_initialized w then dist_get_rank w else 0)
                     =? 0); reflexivity.
        -- intros _ _. split; [now left |]. split.
           ++ apply Hlock; [assumption | lia].
           ++ destruct ((if dist_is_initialized w
                         then dist_get_rank w else 0) =? 0); reflexivity.
      * assert (H0 : torch_restart_count env = 0)
          by (rewrite Z.gtb_ltb in Hgt; apply Z.ltb_ge in Hgt; lia).
        rewrite H0. simpl. split; [| split].
        -- split; [intros _; now split | intros _; now left].
        -- destruct ((if dist_is_initialized w then dist_get_rank w else 0)
                     =? 0); reflexivity.
        -- intros _ Hpos. lia.
    + split; [| split].
      * split; [intros [] | intros [H _]; contradiction].
      * reflexivity.
      * intros H. contradiction.
  - intros lr dir w n Hshards Hlr.
    change (map Z.of_nat (seq 0 (S n)))
      with (0 :: map Z.of_nat (seq 1 n)).
    simpl restarts.
    destruct (init_bootstrap_sent
                {| LOCAL_RANK := lr; torch_restart_count := 0 |} dir w Hshards)
      as (l1 & Ht1 & Hs1).
    destruct (restarts_positive lr dir _ Hshards (seq_positive n)
                (snd (__init__
                        {| LOCAL_RANK := lr; torch_restart_count := 0 |}
                        dir w)))
      as (l2 & Ht2 & Hs2).
    rewrite (new_effects_app _ _ _ (new_effects_trans _ _ _ _ _ Ht1 Ht2)).
    rewrite bootstrap_sent_app, Hs1, Hs2. simpl.
    rewrite Hlr. reflexivity.
Qed.

(** On [world0] the constructor returns [engine0]. *)
Example init_world0 :
  fst (@__init__ example_names example_impl env0 "/ckpt" world0)
  = inr engine0.
Proof. reflexivity. Qed.

(** On a first start or on a restart alike, the constructor of a process
    of local rank 0 and global rank 0 puts the [UPDATE_SHARD] event with
    the global shard count on its queue, and returns the engine. *)
Lemma update_shard_sent_on_rank_0 (env : Environ) (dir : string) (w : World) :
  get_local_shard_num <> 0 ->
  default 0 (LOCAL_RANK env) = 0 ->
  (if dist_is_initialized w then dist_get_rank w else 0) = 0 ->
  let r := __init__ env dir w in
  (exists engine, fst r = inr engine)
  /\ In (QueuePut (SAVE_STEP_QNAME +:+ pretty 0) (MsgEvent update_shard_event))
        (new_effects w (snd r)).
Proof.
  intros Hshards Hlr Hrank r.
  destruct (init_effects env dir w Hshards) as (Htrace & _ & Hok & _).
  fold r in Htrace, Hok. split; [now apply Hok |].
  rewrite (new_effects_app _ _ _ Htrace).
  rewrite Hlr, Hrank. simpl. apply in_or_app. right. now left.
Qed.

End Init.

(** C10, at a process of local rank 0 and global rank 8 (the first
    process of the second node of a job).  The engine has an event queue
    only when its global rank is 0: here [_event_queue] is [None], the
    constructor raises [AttributeError] in [_update_saver_config], and no
    [UPDATE_SHARD] event is put on any queue, on a first start and on a
    restart alike. *)
Theorem update_shard_missing_off_rank_0 :
  let first := @__init__ example_names example_impl env0 "/ckpt"
                 (world_dist 8) in
  let again := @__init__ example_names example_impl env_restarted "/ckpt"
                 (world_dist 8) in
  default 0 (LOCAL_RANK env0) = 0
  /\ fst first = inl AttributeError
  /\ new_effects (world_dist 8) (snd first)
     = [QueuePut "factory" (MsgClassMeta (@descriptor example_impl "/ckpt"));
        QueueUnlink "factory"]
  /\ existsb (is_update_shard 1) (new_effects (world_dist 8) (snd first))
     = false
  /\ fst again = inl AttributeError
  /\ new_effects (world_dist 8) (snd again)
     = [LockRelease "shm_local_rank_0"]
  /\ existsb (is_update_shard 1) (new_effects (world_dist 8) (snd again))
     = false.
Proof.
  cbv zeta. repeat split; vm_compute; reflexivity.
Qed.

(** ** The theorems at concrete inputs *)

(** In a group of two whose rank 0 voted true, rank 1 gets true exactly
    when both voted true. *)
Lemma check_all_rank_ready_witness :
  Z.of_nat (pg_size group2) < 2 ^ 63
  /\ (forall i, peer_int64 world_votes i = if votes_1_0 i then 0 else 1)
  /\ (fst (check_all_rank_ready (Some group2) true world_votes) = inr true
      <-> Forall (fun b => b = true) (contributions group2 true votes_1_0)).
Proof.
  split; [vm_compute; reflexivity |].
  split; [intros i; reflexivity |].
  apply (proj2 (proj2 check_all_rank_ready_spec)).
  - vm_compute; reflexivity.
  - intros i; reflexivity.
Defined.

(** A replica whose state dict holds the reserved key. *)
Lemma save_off_writer_is_noop_witness :
  _local_rank (self replica) <> local_shard_id (self replica)
  /\ @save_state_dict_to_memory example_names state_reserved conf5 replica
     = (inr tt, replica)
  /\ @save_to_memory example_names 5 state_reserved "" replica
     = (inr tt, replica).
Proof.
  assert (H : _local_rank (self replica) <> local_shard_id (self replica))
    by (simpl; lia).
  split; [exact H |].
  split.
  - exact (proj1 (@save_off_writer_is_noop example_names replica
                    state_reserved conf5 5 "" H)).
  - exact (proj1 (proj2 (@save_off_writer_is_noop example_names replica
                           state_reserved conf5 5 "" H))).
Defined.

(** The writer of shard 0 with a state dict that holds the reserved key. *)
Lemma save_raises_iff_reserved_key_witness :
  _local_rank (self process0) = local_shard_id (self process0)
  /\ is_Some (state_reserved !! @DLROVER_CKPT_CONFIG_KEY example_names)
  /\ @save_state_dict_to_memory example_names state_reserved conf5 process0
     = (inl (ValueError
               "The state_dict can not have the key _DLORVER_CKPT_CONFIG."),
        process0).
Proof.
  assert (Hkey : is_Some (state_reserved
                            !! @DLROVER_CKPT_CONFIG_KEY example_names))
    by (exists [0]; vm_compute; reflexivity).
  split; [reflexivity |]. split; [exact Hkey |].
  exact (proj2 (@save_raises_iff_reserved_key example_names process0
                  state_reserved conf5 eq_refl) Hkey).
Defined.

(** The second of two writers cannot take its lock: its call is skipped,
    and in the group no region is written. *)
Lemma save_skips_on_disagreement_witness :
  (_local_rank (self rank1_held) = local_shard_id (self rank1_held)
   /\ state_w !! @DLROVER_CKPT_CONFIG_KEY example_names = None
   /\ SharedLock_acquire (_shm_lock (self rank1_held)) (world rank1_held)
      = (inr false, held_after_acquire)
   /\ check_all_rank_ready (_saver_group (self rank1_held)) false
        held_after_acquire
      = (inr false, held_after_reduce))
  /\ regions (world (snd (@save_state_dict_to_memory example_names
                            state_w conf5 rank1_held)))
     = regions (world rank1_held)
  /\ (@in_lock_step example_names cluster2 = true
      /\ Z.of_nat (length cluster2) < 2 ^ 63
      /\ Exists (fun m => vote (fst m) = false) cluster2)
  /\ regions (world (snd (@save_state_dict_to_memory example_names state_w
                            conf5 (hear (map fst cluster2) rank0_free))))
     = regions (world rank0_free).
Proof.
  assert (Hkey : state_w !! @DLROVER_CKPT_CONFIG_KEY example_names = None)
    by (vm_compute; reflexivity).
  assert (Hstep : @in_lock_step example_names cluster2 = true)
    by (vm_compute; reflexivity).
  assert (Hlen : Z.of_nat (length cluster2) < 2 ^ 63)
    by (vm_compute; reflexivity).
  assert (Hheld : Exists (fun m => vote (fst m) = false) cluster2)
    by (apply Exists_cons_tl, Exists_cons_hd; reflexivity).
  split; [repeat split; try reflexivity; exact Hkey |].
  split.
  - exact (proj1 (proj2 (proj2
            (proj1 (@save_skips_on_disagreement example_names)
               rank1_held state_w conf5 false
               held_after_acquire held_after_reduce
               eq_refl Hkey eq_refl eq_refl)))).
  - split; [repeat split; assumption |].
    exact (proj1 (proj2 (proj2
            (proj2 (@save_skips_on_disagreement example_names)
               cluster2 conf5 0%nat (rank0_free, state_w) _
               Hstep Hlen Hheld eq_refl eq_refl)))).
Defined.

(** The first of two writers that both take their locks, in a distributed
    job: write, release, barrier. *)
Lemma save_commits_in_order_witness :
  (_local_rank (self rank0_free) = local_shard_id (self rank0_free)
   /\ state_w !! @DLROVER_CKPT_CONFIG_KEY example_names = None
   /\ sound_group (_saver_group (self rank0_free)) (world rank0_free)
   /\ SharedLock_acquire (_shm_lock (self rank0_free)) (world rank0_free)
      = (inr true, free_after_acquire)
   /\ check_all_rank_ready (_saver_group (self rank0_free)) true
        free_after_acquire
      = (inr true, free_after_reduce))
  /\ new_effects (world rank0_free)
       (world (snd (@save_state_dict_to_memory example_names
                      state_w conf5 rank0_free)))
     = [LockAcquire "shm_local_rank_0" true;
        AllReduce {| pg_rank := 0; pg_size := 2 |} 0;
        ShmSave 0 conf5 state_w;
        LockRelease "shm_local_rank_0";
        Barrier (Some {| pg_rank := 0; pg_size := 2 |})].
Proof.
  assert (Hkey : state_w !! @DLROVER_CKPT_CONFIG_KEY example_names = None)
    by (vm_compute; reflexivity).
  assert (Hsound : sound_group (_saver_group (self rank0_free))
                     (world rank0_free)).
  { simpl. split; [lia |]. split; [vm_compute; reflexivity |].
    intros i. left. reflexivity. }
  split; [repeat split; try reflexivity; try exact Hkey; apply Hsound |].
  exact (proj1 (proj2 (proj2 (proj2
          (@save_commits_in_order example_names rank0_free state_w conf5
             true free_after_acquire free_after_reduce
             eq_refl Hkey Hsound eq_refl eq_refl))))).
Defined.

(** A loop with steps 5 and 7 on an empty region. *)
Lemma stored_step_follows_caller_witness :
  chain_from (stored_step 0 (world process0))
    (map (fun c => fst (fst c)) calls_5_7)
  /\ chain_from (stored_step 0 (world process0))
       (@stored_steps example_names 0 calls_5_7 process0).
Proof.
  assert (H : chain_from (stored_step 0 (world process0))
                (map (fun c => fst (fst c)) calls_5_7))
    by (unfold stored_step; simpl; lia).
  split; [exact H |].
  exact (proj2 (proj2 (@stored_step_follows_caller example_names))
           calls_5_7 process0 H).
Defined.

(** A region with step 5 staged: a single process loads the payload; a
    rank whose peer reports step 7 gets the empty dict. *)
Lemma get_state_dict_from_memory_witness :
  (step {| step := 5; path := "" |} <> 0
   /\ verify_all_rank_step_consistent (_saver_group (self process_staged)) 5
        (emit (ShmGetConfig 0) (world process_staged))
      = (inr true, emit (ShmGetConfig 0) (world process_staged)))
  /\ get_state_dict_from_memory process_staged
     = (inr state_w,
        {| self := engine0;
           world := emit (ShmLoad 0)
                      (emit (ShmGetConfig 0) (world process_staged)) |})
  /\ fst (verify_all_rank_step_consistent
            (_saver_group (self process_diverged)) 5
            (world process_diverged)) = inr false
  /\ fst (get_state_dict_from_memory process_diverged) = inr ∅.
Proof.
  assert (Hstep : step {| step := 5; path := "" |} <> 0) by (simpl; lia).
  assert (Hfalse : fst (verify_all_rank_step_consistent
                          (_saver_group (self process_diverged)) 5
                          (world process_diverged)) = inr false)
    by (vm_compute; reflexivity).
  split; [split; [exact Hstep | reflexivity] |].
  split.
  - exact (proj1 (proj2 (proj2 (get_state_dict_from_memory_spec
                                  process_staged)))
             _ Hstep eq_refl).
  - split; [exact Hfalse |].
    exact (proj2 (proj2 (proj2 (get_state_dict_from_memory_spec
                                  process_diverged)))
             Hfalse).
Defined.

(** A first start of local rank 0, and four starts in a row. *)
Lemma bootstrap_descriptor_sent_once_witness :
  (@get_local_shard_num example_impl <> 0
   /\ 0 <= torch_restart_count env0
   /\ default 0 (Some 0) = 0)
  /\ bootstrap_sent
       (new_effects world0
          (snd (@__init__ example_names example_impl env0 "/ckpt" world0)))
     = 1%nat
  /\ bootstrap_sent
       (new_effects world0
          (@restarts example_names example_impl (Some 0) "/ckpt"
             (map Z.of_nat (seq 0 4)) world0))
     = 1%nat.
Proof.
  assert (Hshards : @get_local_shard_num example_impl <> 0) by (simpl; lia).
  assert (Hrc : 0 <= torch_restart_count env0) by (simpl; lia).
  split; [repeat split; try assumption; simpl; lia |].
  split.
  - exact (proj1 (proj2
            (proj1 (@bootstrap_descriptor_sent_once example_names example_impl)
               env0 "/ckpt" world0 Hshards Hrc))).
  - exact (proj2 (@bootstrap_descriptor_sent_once example_names example_impl)
             (Some 0) "/ckpt" world0 3%nat Hshards eq_refl).
Defined.

(** * The parameter servers found by a worker *)

(** ** Splitting a file name *)

Lemma split_nonempty (sep : ascii) (s : string) : split sep s <> [].
Proof.
  destruct s as [| c s]; simpl; [discriminate |].
  destruct (Ascii.eqb c sep); [discriminate |].
  destruct (split sep s); discriminate.
Qed.

Lemma split_free (sep : ascii) (s : string) :
  free_of sep s = true -> split sep s = [s].
Proof.
  induction s as [| c s IH]; simpl; [reflexivity |].
  intros H. apply andb_true_iff in H as [Hc Hs].
  apply negb_true_iff in Hc. rewrite Hc, (IH Hs). reflexivity.
Qed.

Lemma split_app_sep (sep : ascii) (s1 s2 : string) :
  split sep (s1 +:+ String sep s2) = split sep s1 ++ split sep s2.
Proof.
  induction s1 as [| c s1 IH]; simpl.
  - now rewrite Ascii.eqb_refl.
  - destruct (Ascii.eqb c sep); rewrite IH; [reflexivity |].
    destruct (split sep s1) as [| field fields] eqn:E; [| reflexivity].
    now apply split_nonempty in E.
Qed.

Lemma last_app_nonempty {A} (l1 l2 : list A) (d : A) :
  l2 <> [] -> List.last (l1 ++ l2) d = List.last l2 d.
Proof.
  intros Hl2. induction l1 as [| x l1 IH]; simpl; [reflexivity |].
  destruct (l1 ++ l2) eqn:E; [| exact IH].
  apply app_eq_nil in E as [_ E]. contradiction.
Qed.

(** The address read from a file name is what follows its last
    underscore. *)
Lemma address_of_app (s1 s2 : string) :
  address_of (s1 +:+ String "_" s2) = address_of s2.
Proof.
  unfold address_of. rewrite split_app_sep.
  apply last_app_nonempty, split_nonempty.
Qed.

Lemma address_of_free (s : string) :
  free_of "_" s = true -> address_of s = s.
Proof.
  intros H. unfold address_of. now rewrite (split_free _ _ H).
Qed.

Lemma prefix_app (s t : string) : String.prefix s (s +:+ t) = true.
Proof.
  induction s as [| c s IH]; simpl; [now destruct t |].
  destruct (ascii_dec c c) as [_ | Hc]; [exact IH | contradiction].
Qed.

Lemma address_of_report (address : string) :
  address_of ("ps_address_" +:+ address) = address_of address.
Proof.
  change ("ps_address_" +:+ address)
    with ("ps_address" +:+ String "_" address).
  apply address_of_app.
Qed.

(** ** One scan of the directory *)

Lemma scan_file_fold (dir_list : list string) :
  forall n cluster,
    fold_left scan_file dir_list (n, cluster)
    = (n + Z.of_nat
             (length (filter (fun f => String.prefix "ps_address_" f = true)
                        dir_list)),
       cluster
       ++ map address_of
            (filter (fun f => String.prefix "ps_address_" f = true)
               dir_list)).
Proof.
  induction dir_list as [| file dir_list IH]; intros n cluster; simpl.
  - now rewrite Z.add_0_r, app_nil_r.
  - rewrite filter_cons.
    destruct (decide (String.prefix "ps_address_" file = true)) as [Hp | Hp].
    + rewrite Hp, IH. simpl length. rewrite Nat2Z.inj_succ. simpl map.
      rewrite <- app_assoc. f_equal. lia.
    + apply not_true_is_false in Hp. rewrite Hp. apply IH.
Qed.

Lemma scan_dir_reports (dir_list : list string) :
  scan_dir dir_list
  = (Z.of_nat
       (length (filter (fun f => String.prefix "ps_address_" f = true)
                  dir_list)),
     map address_of
       (filter (fun f => String.prefix "ps_address_" f = true) dir_list)).
Proof. unfold scan_dir. now rewrite scan_file_fold. Qed.

(** X16.  A scan counts the files whose name starts with [ps_address_] and
    collects the address of each, in the order of the listing: the counter
    is the length of the list collected. *)
Theorem scan_dir_collects (dir_list : list string) :
  let reports :=
    filter (fun f => String.prefix "ps_address_" f = true) dir_list in
  scan_dir dir_list = (Z.of_nat (length reports), map address_of reports)
  /\ fst (scan_dir dir_list) = Z.of_nat (length (snd (scan_dir dir_list))).
Proof.
  intros reports. rewrite scan_dir_reports. fold reports.
  simpl. split; [reflexivity |]. now rewrite length_map.
Qed.

(** ** The loop of get_ps_cluster *)

(** X17.  [get_ps_cluster] returns from the first round whose listing has as
    many reports as [args.ps_num], with the addresses of that listing, so
    with exactly [args.ps_num] addresses; it does not return as long as
    the number of reports differs, in particular never for a negative
    [ps_num]. *)
Theorem get_ps_cluster_returns (args : Args) (listings : list (list string)) :
  (forall cluster,
      get_ps_cluster args listings = Some cluster ->
      Z.of_nat (length cluster) = ps_num args
      /\ exists before dir_list later,
           listings = before ++ dir_list :: later
           /\ Forall (fun l => fst (scan_dir l) <> ps_num args) before
           /\ scan_dir dir_list = (ps_num args, cluster))
  /\ (get_ps_cluster args listings = None
      <-> Forall (fun l => fst (scan_dir l) <> ps_num args) listings)
  /\ (ps_num args < 0 -> get_ps_cluster args listings = None).
Proof.
  assert (Hnone : forall ls,
            get_ps_cluster args ls = None
            <-> Forall (fun l => fst (scan_dir l) <> ps_num args) ls).
  { induction ls as [| l ls IH]; simpl.
    - split; [constructor | reflexivity].
    - destruct (scan_dir l) as [n c] eqn:E.
      destruct (Z.eqb_spec n (ps_num args)) as [Heq | Hne].
      + split; [discriminate |]. intros Hall.
        inversion Hall as [| ? ? Hl _]; subst. rewrite E in Hl.
        simpl in Hl. contradiction.
      + rewrite IH. split.
        * intros Hall. constructor; [now rewrite E | exact Hall].
        * intros Hall. now inversion Hall. }
  split; [| split].
  - induction listings as [| l ls IH]; intros cluster Hget; simpl in Hget;
      [discriminate |].
    destruct (scan_dir l) as [n c] eqn:E.
    destruct (Z.eqb_spec n (ps_num args)) as [Heq | Hne].
    + injection Hget as <-. split.
      * rewrite scan_dir_reports in E. injection E as <- <-.
        now rewrite length_map.
      * exists [], l, ls. split; [reflexivity |].
        split; [constructor | now rewrite E, Heq].
    + destruct (IH cluster Hget) as (Hlen & before & dl & later & -> & Hb & Hs).
      split; [exact Hlen |].
      exists (l :: before), dl, later. split; [reflexivity |].
      split; [| exact Hs]. constructor; [now rewrite E | exact Hb].
  - apply Hnone.
  - intros Hneg. apply Hnone. apply List.Forall_forall. intros l _.
    rewrite scan_dir_reports. simpl. lia.
Qed.

Lemma get_ps_cluster_returns_witness :
  get_ps_cluster worker_args [["train.py"]; listing_two]
  = Some ["10.0.0.2:2222"; "10.0.0.1:2222"]
  /\ Z.of_nat (length ["10.0.0.2:2222"; "10.0.0.1:2222"])
     = ps_num worker_args.
Proof.
  assert (H : get_ps_cluster worker_args [["train.py"]; listing_two]
              = Some ["10.0.0.2:2222"; "10.0.0.1:2222"]) by reflexivity.
  split; [exact H |].
  exact (proj1 (proj1 (get_ps_cluster_returns worker_args
                         [["train.py"]; listing_two]) _ H)).
Defined.

(** ** From the reports to the cluster *)

Lemma reported_files (addresses : list string) (d : Directory) (file : string) :
  is_Some (reported addresses d !! file)
  <-> In file (map (fun a => "ps_address_" +:+ a) addresses)
      \/ is_Some (d !! file).
Proof.
  induction addresses as [| a addresses IH]; simpl.
  - split; [now right | now intros [[] | H]].
  - unfold report_ps_address.
    destruct (decide ("ps_address_" +:+ a = file)) as [<- | Hne].
    + rewrite lookup_insert_eq. split; [intros _; left; now left | eauto].
    + rewrite lookup_insert_ne by exact Hne. rewrite IH.
      split; intros [H | H]; auto.
      destruct H as [H | H]; [contradiction | auto].
Qed.

Lemma report_name_inj (a b : string) :
  "ps_address_" +:+ a = "ps_address_" +:+ b -> a = b.
Proof. intros H. now injection H. Qed.

(** X18.  The parameter servers, of distinct addresses without underscore and
    without path separator, have reported in a directory that held no
    report before: a worker that
    expects as many servers as have reported returns from its first scan,
    whatever the order of the listing, with the addresses of the servers
    and nothing else. *)
Theorem cluster_discovery (addresses : list string) (d : Directory)
    (dir_list : list string) (args : Args) :
  NoDup addresses ->
  Forall (fun a => free_of "_" a = true) addresses ->
  Forall (fun a => free_of "/" a = true) addresses ->
  no_report d ->
  is_listing (reported addresses d) dir_list ->
  ps_num args = Z.of_nat (length addresses) ->
  exists cluster,
    get_ps_cluster args [dir_list] = Some cluster
    /\ Permutation cluster addresses.
Proof.
  intros Hnodup Hfree _ Hnone [Hlist Hfiles] Hnum.
  set (name := fun a : string => "ps_address_" +:+ a).
  set (reports :=
         filter (fun f => String.prefix "ps_address_" f = true) dir_list).
  assert (Hperm : Permutation reports (map name addresses)).
  { apply NoDup_Permutation.
    - now apply NoDup_filter.
    - apply NoDup_fmap_2; [| exact Hnodup].
      intros a b. apply report_name_inj.
    - intros file. unfold reports.
      rewrite list_elem_of_filter, !list_elem_of_In, Hfiles, reported_files.
      fold name. split.
      + intros [Hp [Hin | Hold]]; [exact Hin |].
        rewrite (Hnone file Hold) in Hp. discriminate.
      + intros Hin. split; [| now left].
        apply in_map_iff in Hin as (a & <- & _). apply prefix_app. }
  assert (Hback : map address_of (map name addresses) = addresses).
  { clear Hperm Hfiles Hnum Hnodup. induction Hfree as [| a l Ha _ IH]; simpl;
      [reflexivity |].
    rewrite IH. f_equal. unfold name. rewrite address_of_report.
    now apply address_of_free. }
  exists (map address_of reports). split.
  - simpl. rewrite scan_dir_reports. fold reports.
    rewrite Hnum, (Permutation_length Hperm), length_map, Z.eqb_refl.
    reflexivity.
  - rewrite <- Hback. now apply Permutation_map.
Qed.

Lemma cluster_discovery_witness :
  (NoDup two_servers
   /\ Forall (fun a => free_of "_" a = true) two_servers
   /\ Forall (fun a => free_of "/" a = true) two_servers
   /\ no_report job_dir
   /\ is_listing (reported two_servers job_dir) listing_two
   /\ ps_num worker_args = Z.of_nat (length two_servers))
  /\ exists cluster,
       get_ps_cluster worker_args [listing_two] = Some cluster
       /\ Permutation cluster two_servers.
Proof.
  assert (Hnodup : NoDup two_servers) by compute_done.
  assert (Hfree : Forall (fun a => free_of "_" a = true) two_servers)
    by (repeat constructor).
  assert (Hflat : Forall (fun a => free_of "/" a = true) two_servers)
    by (repeat constructor).
  assert (Hnone : no_report job_dir).
  { intros file [content Hfile]. unfold job_dir in Hfile.
    apply lookup_singleton_Some in Hfile as [<- _]. reflexivity. }
  assert (Hlisting : is_listing (reported two_servers job_dir) listing_two).
  { split; [compute_done |].
    intros file. rewrite reported_files. simpl. split.
    - intros [<- | [<- | [<- | []]]]; auto; right; eexists; reflexivity.
    - intros [[<- | [<- | []]] | [content Hfile]]; auto.
      unfold job_dir in Hfile.
      apply lookup_singleton_Some in Hfile as [<- _]. auto. }
  assert (Hnum : ps_num worker_args = Z.of_nat (length two_servers))
    by reflexivity.
  split; [repeat split; assumption || apply Hlisting |].
  exact (cluster_discovery two_servers job_dir listing_two worker_args
           Hnodup Hfree Hflat Hnone Hlisting Hnum).
Defined.

(** ** One report, read back *)

Lemma split_fields_free (sep : ascii) (s : string) :
  Forall (fun field => free_of sep field = true) (split sep s).
Proof.
  induction s as [| c s IH]; simpl; [now repeat constructor |].
  destruct (Ascii.eqb c sep) eqn:Hc; [now constructor |].
  destruct (split sep s) as [| field fields]; simpl.
  - repeat constructor. simpl. now rewrite Hc.
  - inversion IH as [| ? ? Hfield Hfields]; subst.
    constructor; [| exact Hfields]. simpl. now rewrite Hc, Hfield.
Qed.

Lemma last_Forall {A} (P : A -> Prop) (l : list A) (d : A) :
  l <> [] -> Forall P l -> P (List.last l d).
Proof.
  intros Hl Hall. induction Hall as [| x l Hx Hall IH]; [contradiction |].
  destruct l as [| y l]; [exact Hx |]. apply IH. discriminate.
Qed.

(** The address read from a file name has no underscore. *)
Lemma address_of_is_free (s : string) : free_of "_" (address_of s) = true.
Proof.
  unfold address_of.
  apply (last_Forall (fun field => free_of "_" field = true)).
  - apply split_nonempty.
  - apply split_fields_free.
Qed.

(** The report of one server in a directory that held none is the only
    report of every listing. *)
Lemma single_report (address : string) (d : Directory)
    (dir_list : list string) :
  no_report d ->
  is_listing (report_ps_address address d) dir_list ->
  filter (fun f => String.prefix "ps_address_" f = true) dir_list
  = ["ps_address_" +:+ address].
Proof.
  intros Hnone [Hlist Hfiles].
  apply Permutation_length_1_inv. symmetry.
  apply NoDup_Permutation.
  - now apply NoDup_filter.
  - apply NoDup_singleton.
  - intros file.
    rewrite list_elem_of_filter, list_elem_of_singleton, list_elem_of_In,
      Hfiles.
    change (report_ps_address address d) with (reported [address] d).
    rewrite reported_files. simpl. split.
    + intros [Hp [[Hin | []] | Hold]]; [now symmetry |].
      rewrite (Hnone file Hold) in Hp. discriminate.
    + intros ->. split; [apply prefix_app | left; now left].
Qed.

(** X15.  A parameter server calls [report_ps_address(address)], with an
    address free of a path separator, in a directory that held no report:
    a worker that expects one server returns from [get_ps_cluster], on
    any listing of the directory, the one address
    [("ps_address_" + address).split("_")[-1]], which is what follows the
    last underscore of the address.  It is the address that was reported
    if and only if the address has no underscore. *)
Theorem reported_address_read_back (address : string) (d : Directory)
    (dir_list : list string) (args : Args) :
  free_of "/" address = true ->
  no_report d ->
  is_listing (report_ps_address address d) dir_list ->
  ps_num args = 1 ->
  get_ps_cluster args [dir_list] = Some [address_of address]
  /\ (address_of address = address <-> free_of "_" address = true)
  /\ (forall host rest,
        address = host +:+ String "_" rest ->
        get_ps_cluster args [dir_list] = Some [address_of rest]).
Proof.
  intros _ Hnone Hlisting Hnum.
  assert (Hget : get_ps_cluster args [dir_list] = Some [address_of address]).
  { simpl. rewrite scan_dir_reports.
    rewrite (single_report address d dir_list Hnone Hlisting). simpl.
    rewrite Hnum, address_of_report. reflexivity. }
  split; [exact Hget |]. split.
  - split.
    + intros Heq. rewrite <- Heq. apply address_of_is_free.
    + apply address_of_free.
  - intros host rest ->. rewrite Hget. now rewrite address_of_app.
Qed.

Lemma reported_address_read_back_witness :
  (free_of "/" "ps_0:2222" = true
   /\ no_report job_dir
   /\ is_listing (report_ps_address "ps_0:2222" job_dir) listing_underscore
   /\ ps_num one_server_args = 1)
  /\ get_ps_cluster one_server_args [listing_underscore] = Some ["0:2222"].
Proof.
  assert (Hnone : no_report job_dir).
  { intros file [content Hfile]. unfold job_dir in Hfile.
    apply lookup_singleton_Some in Hfile as [<- _]. reflexivity. }
  assert (Hlisting :
    is_listing (report_ps_address "ps_0:2222" job_dir) listing_underscore).
  { split; [compute_done |].
    intros file.
    change (report_ps_address "ps_0:2222" job_dir)
      with (reported ["ps_0:2222"] job_dir).
    rewrite reported_files. simpl. split.
    - intros [<- | [<- | []]]; auto; right; eexists; reflexivity.
    - intros [[<- | []] | [content Hfile]]; auto.
      unfold job_dir in Hfile.
      apply lookup_singleton_Some in Hfile as [<- _]. auto. }
  split; [repeat split; try reflexivity; assumption || apply Hlisting |].
  exact (proj1 (reported_address_read_back "ps_0:2222" job_dir
                  listing_underscore one_server_args
                  eq_refl Hnone Hlisting eq_refl)).
Defined.

(** * More on the engine *)

(** ** What a save leaves alone *)

Lemma acquire_frame (name : string) (w : World) :
  let w1 := snd (SharedLock_acquire name w) in
  queues w1 = queues w
  /\ peer_float32 w1 = peer_float32 w
  /\ dist_get_rank w1 = dist_get_rank w.
Proof.
  unfold SharedLock_acquire. destruct (locks w name); simpl; auto.
Qed.

Lemma check_frame (group : option ProcessGroup) (ready : bool) (w : World) :
  let w2 := snd (check_all_rank_ready group ready w) in
  queues w2 = queues w
  /\ peer_float32 w2 = peer_float32 w
  /\ peer_int64 w2 = peer_int64 w
  /\ dist_get_rank w2 = dist_get_rank w.
Proof. destruct group; simpl; auto. Qed.

Section SaveFrame.
Context `{names : CkptSaverNames}.

(** The call in a writer whose state dict is free of the reserved key, in
    terms of the worlds after the attempt on the lock and after the
    check. *)
Lemma save_cases (p : Process) (sd : StateDict) (conf : CheckpointShardConfig) :
  _local_rank (self p) = local_shard_id (self p) ->
  sd !! DLROVER_CKPT_CONFIG_KEY = None ->
  exists w1 w2 b,
    SharedLock_acquire (_shm_lock (self p)) (world p)
    = (inr (negb (locks (world p) (_shm_lock (self p)))), w1)
    /\ check_all_rank_ready (_saver_group (self p))
         (negb (locks (world p) (_shm_lock (self p)))) w1 = (inr b, w2)
    /\ queues w2 = queues (world p)
    /\ regions w2 = regions (world p)
    /\ locks w2 (_shm_lock (self p)) = true
    /\ (forall n, n <> _shm_lock (self p) -> locks w2 n = locks (world p) n).
Proof.
  intros Hwriter Hkey.
  destruct (acquire_result (_shm_lock (self p)) (world p))
    as (w1 & Hacq & _ & Hr1 & _ & _ & Hl1 & Hl1').
  destruct (check_result (_saver_group (self p))
              (negb (locks (world p) (_shm_lock (self p)))) w1)
    as (b & w2 & Hcheck & _ & Hr2 & Hl2 & _).
  exists w1, w2, b. split; [exact Hacq |]. split; [exact Hcheck |].
  pose proof (acquire_frame (_shm_lock (self p)) (world p)) as (Hq1 & _).
  pose proof (check_frame (_saver_group (self p))
                (negb (locks (world p) (_shm_lock (self p)))) w1) as (Hq2 & _).
  rewrite Hacq in Hq1. rewrite Hcheck in Hq2. simpl in Hq1, Hq2.
  repeat split; try congruence.
  intros n Hn. rewrite Hl2. now apply Hl1'.
Qed.

Lemma save_locks (p : Process) (sd : StateDict) (c : CheckpointShardConfig)
    (n : string) :
  locks (world (snd (save_state_dict_to_memory sd c p))) n = locks (world p) n.
Proof.
  destruct (Z.eq_dec (_local_rank (self p)) (local_shard_id (self p)))
    as [Hwriter | Hoff]; [| now rewrite (save_off_writer p sd c Hoff)].
  destruct (sd !! DLROVER_CKPT_CONFIG_KEY) as [v |] eqn:Hkey.
  { rewrite (save_reserved_key p sd c Hwriter)
      by (rewrite Hkey; eauto).
    reflexivity. }
  destruct (save_cases p sd c Hwriter Hkey)
    as (w1 & w2 & b & Hacq & Hcheck & _ & _ & Hheld & Hother).
  destruct b.
  - rewrite (save_commit p sd c _ w1 w2 Hwriter Hkey Hacq Hcheck).
    destruct (locks (world p) (_shm_lock (self p))) eqn:Hlock;
      destruct (dist_is_initialized w2); simpl;
      destruct (String.eqb_spec n (_shm_lock (self p))) as [-> | Hn];
      auto; congruence.
  - rewrite (save_skip p sd c _ w1 w2 Hwriter Hkey Hacq Hcheck).
    destruct (locks (world p) (_shm_lock (self p))) eqn:Hlock; simpl;
      destruct (String.eqb_spec n (_shm_lock (self p))) as [-> | Hn];
      auto; congruence.
Qed.

(** X1.  A call of [save_state_dict_to_memory] or of [save_to_memory]
    that returns normally leaves every lock in the state it found it in:
    it has released the lock if it took it, and it has not touched a lock
    that another holder had; so does a call that raises the [ValueError]
    of the reserved key, which is raised before the lock is tried.  (A
    call that a collective or the handler interrupts by an exception of
    its own, between the attempt on the lock and the release, is no part
    of this statement.) *)
Theorem save_returned_keeps_locks (p : Process) (sd : StateDict)
    (conf : CheckpointShardConfig) (s : Z) (dir : string) :
  (fst (save_state_dict_to_memory sd conf p) = inr tt ->
   forall n, locks (world (snd (save_state_dict_to_memory sd conf p))) n
             = locks (world p) n)
  /\ (fst (save_to_memory s sd dir p) = inr tt ->
      forall n, locks (world (snd (save_to_memory s sd dir p))) n
                = locks (world p) n)
  /\ (forall msg,
        fst (save_state_dict_to_memory sd conf p) = inl (ValueError msg) ->
        forall n, locks (world (snd (save_state_dict_to_memory sd conf p))) n
                  = locks (world p) n).
Proof.
  split; [intros _ n; apply save_locks |].
  split; [intros _ n; apply save_locks |].
  intros msg _ n. apply save_locks.
Qed.

(** X2.  [save_state_dict_to_memory] changes no queue and no region but the one
    of the shard of the engine, and in the engine nothing but
    [_cached_step]. *)
Theorem save_frame (p : Process) (sd : StateDict)
    (conf : CheckpointShardConfig) :
  let p' := snd (save_state_dict_to_memory sd conf p) in
  queues (world p') = queues (world p)
  /\ (forall shard, shard <> _shm_handler (self p) ->
      regions (world p') shard = regions (world p) shard)
  /\ set_cached_step (_cached_step (self p)) (self p')
     = set_cached_step (_cached_step (self p)) (self p).
Proof.
  intros p'. subst p'.
  destruct (Z.eq_dec (_local_rank (self p)) (local_shard_id (self p)))
    as [Hwriter | Hoff]; [| now rewrite (save_off_writer p sd conf Hoff)].
  destruct (sd !! DLROVER_CKPT_CONFIG_KEY) as [v |] eqn:Hkey.
  { rewrite (save_reserved_key p sd conf Hwriter)
      by (rewrite Hkey; eauto).
    now repeat split. }
  destruct (save_cases p sd conf Hwriter Hkey)
    as (w1 & w2 & b & Hacq & Hcheck & Hq & Hr & _ & _).
  destruct b.
  - rewrite (save_commit p sd conf _ w1 w2 Hwriter Hkey Hacq Hcheck).
    destruct (negb (locks (world p) (_shm_lock (self p))));
      destruct (dist_is_initialized w2); simpl;
      (split; [exact Hq |]); (split; [| reflexivity]);
      intros shard Hshard; apply Z.eqb_neq in Hshard; rewrite Hshard;
      now rewrite Hr.
  - rewrite (save_skip p sd conf _ w1 w2 Hwriter Hkey Hacq Hcheck).
    destruct (negb (locks (world p) (_shm_lock (self p)))); simpl;
      (split; [exact Hq |]); (split; [| reflexivity]);
      intros shard _; now rewrite Hr.
Qed.


End SaveFrame.

Section SaveLoad.
Context `{names : CkptSaverNames}.

(** ** Saving, then loading *)

(** X4.  In a single process (no saver group) whose lock is free, what
    [save_to_memory] stages is what [get_state_dict_from_memory] returns
    next, unless the step is 0: a checkpoint staged with step 0 is in the
    region, and is never returned. *)
Theorem save_then_load (p : Process) (s : Z) (sd : StateDict) (dir : string) :
  _local_rank (self p) = local_shard_id (self p) ->
  sd !! DLROVER_CKPT_CONFIG_KEY = None ->
  _saver_group (self p) = None ->
  locks (world p) (_shm_lock (self p)) = false ->
  let p' := snd (save_to_memory s sd dir p) in
  regions (world p') (_shm_handler (self p))
  = {| region_config := Some {| step := s; path := dir |};
       region_state := sd |}
  /\ fst (get_state_dict_from_memory p') = inr (if s =? 0 then ∅ else sd).
Proof.
  intros Hwriter Hkey Hgroup Hfree p'. subst p'. unfold save_to_memory.
  set (conf := SingleFileCheckpointConfig s dir).
  destruct (acquire_result (_shm_lock (self p)) (world p))
    as (w1 & Hacq & _).
  rewrite Hfree in Hacq. simpl in Hacq.
  assert (Hcheck : check_all_rank_ready (_saver_group (self p)) true w1
                   = (inr true, w1)) by (now rewrite Hgroup).
  destruct (save_commit_outcome p sd conf true w1 w1
              Hwriter Hkey Hacq Hcheck) as (_ & Hself & Hreg & _).
  split; [exact Hreg |].
  unfold get_state_dict_from_memory, bind, get_self, on_world,
    SharedMemoryHandler_get_checkpoint_config. simpl.
  rewrite Hself. simpl. rewrite Hreg, Hgroup. simpl.
  destruct (s =? 0); [reflexivity |]. simpl. now rewrite Hreg.
Qed.

End SaveLoad.

(** X5.  [get_state_dict_from_memory] only reads: its first operation is the
    read of the header, every operation of it is a read or the gathering
    of the steps, and it leaves the engine, the regions, the locks and
    the queues as they were; it never takes the lock. *)
Theorem load_only_reads (p : Process) :
  let r := get_state_dict_from_memory p in
  self (snd r) = self p
  /\ regions (world (snd r)) = regions (world p)
  /\ locks (world (snd r)) = locks (world p)
  /\ queues (world (snd r)) = queues (world p)
  /\ forallb is_read (new_effects (world p) (world (snd r))) = true
  /\ hd_error (new_effects (world p) (world (snd r)))
     = Some (ShmGetConfig (_shm_handler (self p))).
Proof.
  intros r. subst r.
  unfold get_state_dict_from_memory, bind, get_self, on_world,
    SharedMemoryHandler_get_checkpoint_config,
    SharedMemoryHandler_load_state_dict. simpl.
  set (config := match region_config
                         (regions (world p) (_shm_handler (self p))) with
                 | Some c => c
                 | None => default_CheckpointShardConfig
                 end).
  destruct (step config =? 0); simpl.
  - repeat split; try reflexivity;
      now rewrite (new_effects_app _ _ [ShmGetConfig (_shm_handler (self p))]).
  - destruct (_saver_group (self p)) as [g |]; simpl.
    + unfold bind, of_result, dist_all_gather. simpl.
      destruct (tensor_of_step (step config)) as [e | t]; simpl.
      * repeat split; try reflexivity;
          now rewrite (new_effects_app _ _
                         [ShmGetConfig (_shm_handler (self p))]).
      * destruct (contributions g t (peer_float32 (world p)))
          as [| first rest]; simpl;
          [| destruct (negb (Float32_eqb first first)); simpl;
             [| destruct (all_equal_to first rest); simpl]];
          repeat split; try reflexivity;
          first
            [ now rewrite (new_effects_app _ _
                             [ShmGetConfig (_shm_handler (self p));
                              AllGather g t;
                              ShmLoad (_shm_handler (self p))])
                by (simpl; now rewrite <- !app_assoc)
            | now rewrite (new_effects_app _ _
                             [ShmGetConfig (_shm_handler (self p));
                              AllGather g t])
                by (simpl; now rewrite <- !app_assoc) ].
    + repeat split; try reflexivity;
        now rewrite (new_effects_app _ _
                       [ShmGetConfig (_shm_handler (self p));
                        ShmLoad (_shm_handler (self p))])
          by (simpl; now rewrite <- !app_assoc).
Qed.

(** ** More on the constructor *)

Section Constructor.
Context `{names : CkptSaverNames} `{impl : CheckpointEngineImpl}.

(** The constructor, case by case. *)
Lemma init_run (env : Environ) (dir : string) (w : World) :
  get_local_shard_num <> 0 ->
  let rank := if dist_is_initialized w then dist_get_rank w else 0 in
  let lr := default 0 (LOCAL_RANK env) in
  let w1 :=
    if torch_restart_count env >? 0
    then emit (LockRelease (lock_name_of env))
           (set_lock (lock_name_of env) false w)
    else emit (QueueUnlink "factory")
           (emit (QueuePut "factory" (MsgClassMeta (descriptor dir)))
              (push_queue "factory" (MsgClassMeta (descriptor dir)) w)) in
  __init__ env dir w
  = if lr =? 0 then
      if rank =? 0 then
        (inr (constructed env dir w),
         emit (QueuePut (SAVE_STEP_QNAME +:+ pretty 0)
                 (MsgEvent update_shard_event))
           (push_queue (SAVE_STEP_QNAME +:+ pretty 0)
              (MsgEvent update_shard_event) w1))
      else (inl AttributeError, w1)
    else (inr (constructed env dir w), w).
Proof.
  intros Hshards rank lr w1. subst w1. unfold __init__.
  apply Z.eqb_neq in Hshards. rewrite Hshards.
  unfold _notify_agent_to_create_saver, _update_saver_config,
    bind, get_self, on_world, ret, raise, constructed, lock_name_of,
    descriptor, update_shard_event.
  fold rank. fold lr. simpl.
  destruct (lr =? 0) eqn:Hlr; simpl.
  - destruct (torch_restart_count env >? 0) eqn:Hrc; simpl;
      destruct (rank =? 0) eqn:Hrank; simpl;
      repeat (rewrite ?Hlr, ?Hrc, ?Hrank; simpl); reflexivity.
  - repeat (rewrite ?Hlr; simpl). now destruct w.
Qed.

(** X7.  The constructor raises [ZeroDivisionError], and leaves the world as
    it is, exactly when there is no local shard; it raises
    [AttributeError] exactly when there are local shards, the local rank
    is 0 and the global rank is not; in every other case it returns the
    engine. *)
Theorem init_outcome (env : Environ) (dir : string) (w : World) :
  let rank := if dist_is_initialized w then dist_get_rank w else 0 in
  let lr := default 0 (LOCAL_RANK env) in
  let r := __init__ env dir w in
  (fst r = inl ZeroDivisionError <-> get_local_shard_num = 0)
  /\ (get_local_shard_num = 0 -> snd r = w)
  /\ (fst r = inl AttributeError
      <-> get_local_shard_num <> 0 /\ lr = 0 /\ rank <> 0)
  /\ (fst r = inr (constructed env dir w)
      <-> get_local_shard_num <> 0 /\ (lr <> 0 \/ rank = 0)).
Proof.
  intros rank lr r. subst r.
  destruct (Z.eq_dec get_local_shard_num 0) as [Hzero | Hshards].
  - unfold __init__. rewrite Hzero. simpl.
    split; [tauto |]. split; [reflexivity |].
    split; (split; [discriminate | intros [H _]; now contradiction H]).
  - rewrite (init_run env dir w Hshards). fold rank. fold lr.
    destruct (Z.eqb_spec lr 0) as [Hlr | Hlr];
      [destruct (Z.eqb_spec rank 0) as [Hrank | Hrank] |]; simpl;
      (split; [split; [discriminate | intros H; contradiction] |]);
      (split; [intros H; contradiction |]);
      split; split; try discriminate; try tauto; intros _; reflexivity.
Qed.

(** X8.  The constructor writes no region.  It changes a lock only in a
    restart of local rank 0, and then only the lock of its shard, which is
    free afterwards whoever held it.  With a local rank other than 0 it
    changes nothing at all. *)
Theorem init_frame (env : Environ) (dir : string) (w : World) :
  let lr := default 0 (LOCAL_RANK env) in
  let w' := snd (__init__ env dir w) in
  regions w' = regions w
  /\ (forall name,
        locks w' name
        = if negb (get_local_shard_num =? 0) && (lr =? 0)
             && (torch_restart_count env >? 0)
             && String.eqb name (lock_name_of env)
          then false else locks w name)
  /\ (lr <> 0 -> w' = w).
Proof.
  intros lr w'. subst w'.
  destruct (Z.eq_dec get_local_shard_num 0) as [Hzero | Hshards].
  - unfold __init__. rewrite Hzero. simpl. now repeat split.
  - rewrite (init_run env dir w Hshards). fold lr.
    apply Z.eqb_neq in Hshards. rewrite Hshards. simpl.
    destruct (Z.eqb_spec lr 0) as [Hlr | Hlr]; simpl.
    + destruct (torch_restart_count env >? 0);
        destruct ((if dist_is_initialized w then dist_get_rank w else 0) =? 0);
        simpl; (split; [reflexivity |]);
        (split; [| intros H; contradiction]); intros name;
        try reflexivity; now destruct (String.eqb name (lock_name_of env)).
    + now repeat split.
Qed.

(** X9.  With a positive number of local shards, the engine that the
    constructor returns is bound to a shard between 0 and that number,
    and it is the writer of its shard exactly when its local rank is
    itself between 0 and that number; it starts without saver group and
    with cached step 0. *)
Theorem init_shard (env : Environ) (dir : string) (w : World)
    (engine : CheckpointEngine) :
  0 < get_local_shard_num ->
  fst (__init__ env dir w) = inr engine ->
  0 <= local_shard_id engine < get_local_shard_num
  /\ _shm_handler engine = local_shard_id engine
  /\ _shm_lock engine = SHM_LOCK_NAME +:+ pretty (local_shard_id engine)
  /\ (_local_rank engine = local_shard_id engine
      <-> 0 <= _local_rank engine < get_local_shard_num)
  /\ _local_rank engine = default 0 (LOCAL_RANK env)
  /\ _saver_group engine = None
  /\ _cached_step engine = 0.
Proof.
  intros Hshards Hret.
  rewrite (init_run env dir w) in Hret by lia.
  assert (Heng : engine = constructed env dir w).
  { destruct (default 0 (LOCAL_RANK env) =? 0);
      [destruct ((if dist_is_initialized w then dist_get_rank w else 0) =? 0) |];
      simpl in Hret; congruence. }
  subst engine. simpl.
  pose proof (Z.mod_pos_bound (default 0 (LOCAL_RANK env))
                get_local_shard_num Hshards) as Hbound.
  split; [exact Hbound |].
  split; [reflexivity |]. split; [reflexivity |].
  split; [| now repeat split].
  split.
  - intros Heq. rewrite Heq. exact Hbound.
  - intros Hin. symmetry. now apply Z.mod_small.
Qed.

(** X10.  On a first start of the first process of the job (local rank 0,
    global rank 0), when the queue of the events is not the queue named
    "factory", the constructor appends the bootstrap descriptor to the
    queue named "factory" and the [UPDATE_SHARD] event to the queue of the
    events, and changes no other queue; on a restart it appends only the
    event. *)
Theorem init_queues (env : Environ) (dir : string) (w : World) :
  get_local_shard_num <> 0 ->
  default 0 (LOCAL_RANK env) = 0 ->
  (if dist_is_initialized w then dist_get_rank w else 0) = 0 ->
  SAVE_STEP_QNAME +:+ pretty 0 <> "factory" ->
  let w' := snd (__init__ env dir w) in
  queues w' "factory"
  = queues w "factory"
    ++ (if torch_restart_count env >? 0 then []
        else [MsgClassMeta (descriptor dir)])
  /\ queues w' (SAVE_STEP_QNAME +:+ pretty 0)
     = queues w (SAVE_STEP_QNAME +:+ pretty 0) ++ [MsgEvent update_shard_event]
  /\ (forall q, q <> "factory" -> q <> SAVE_STEP_QNAME +:+ pretty 0 ->
      queues w' q = queues w q).
Proof.
  intros Hshards Hlr Hrank Hnames w'. subst w'.
  rewrite (init_run env dir w Hshards). rewrite Hlr, Hrank.
  change (0 =? 0) with true. cbv iota.
  apply String.eqb_neq in Hnames.
  assert (Hnames' : String.eqb "factory" (SAVE_STEP_QNAME +:+ pretty 0) = false)
    by (rewrite String.eqb_sym; exact Hnames).
  destruct (torch_restart_count env >? 0);
    cbn [snd queues emit push_queue set_lock];
    rewrite ?Hnames, ?Hnames', ?String.eqb_refl;
    rewrite ?app_nil_r; (split; [reflexivity |]); (split; [reflexivity |]);
    intros q Hq1 Hq2; apply String.eqb_neq in Hq1, Hq2;
    now rewrite ?Hq1, ?Hq2.
Qed.


End Constructor.

(** ** A group of writers that all take their locks *)

Section ClusterCommit.
Context `{names : CkptSaverNames}.

(** When every member of a group in lock step takes its lock, the check
    passes in every member. *)
Lemma agreement_everywhere (ranks : list (Process * StateDict))
    (i : nat) (m : Process * StateDict) (w1 : World) :
  in_lock_step ranks = true ->
  Z.of_nat (length ranks) < 2 ^ 63 ->
  Forall (fun m => vote (fst m) = true) ranks ->
  nth_error ranks i = Some m ->
  peer_int64 w1 = peer_int64 (world (hear (map fst ranks) (fst m))) ->
  exists w2,
    check_all_rank_ready (_saver_group (self (fst m))) (vote (fst m)) w1
    = (inr true, w2).
Proof.
  intros Hstep Hlen Hfree Hi Hpeers.
  pose proof (members_from_nth _ ranks 0 i m Hstep Hi) as Hm.
  unfold reaches_collective in Hm. simpl in Hm.
  apply andb_true_iff in Hm as [_ Hg].
  destruct (_saver_group (self (fst m))) as [g |]; [| discriminate].
  apply andb_true_iff in Hg as [Hrank Hsize].
  apply Nat.eqb_eq in Hrank, Hsize.
  destruct g as [gr gs]. simpl in Hrank, Hsize. subst gr gs.
  eexists. simpl. unfold dist_all_reduce, bind, ret. simpl.
  f_equal. f_equal.
  change (if vote (fst m) then 0 else 1) with (vote_value (vote (fst m))).
  rewrite Hpeers.
  rewrite <- (length_map fst ranks).
  rewrite heard_contributions by (now rewrite nth_error_map, Hi).
  apply sum_votes_zero; [now rewrite !length_map |].
  apply List.Forall_forall. intros b Hb.
  apply in_map_iff in Hb as (q & <- & Hq).
  apply in_map_iff in Hq as (m' & <- & Hm').
  rewrite List.Forall_forall in Hfree. now apply Hfree.
Qed.

(** X12.  When the writers of a group of less than 2^63 members call
    [save_state_dict_to_memory] together and every one of them takes its
    lock, every one of them writes: its call returns normally, its region
    holds the config of the call and its own state dict, its
    [_cached_step] is the step of the config, and its lock is free
    again. *)
Theorem collective_commit (ranks : list (Process * StateDict))
    (conf : CheckpointShardConfig) (i : nat) (m : Process * StateDict)
    (r : (Exception + unit) * Process) :
  in_lock_step ranks = true ->
  Z.of_nat (length ranks) < 2 ^ 63 ->
  Forall (fun m => vote (fst m) = true) ranks ->
  nth_error ranks i = Some m ->
  nth_error (collective_save ranks conf) i = Some r ->
  fst r = inr tt
  /\ regions (world (snd r)) (_shm_handler (self (fst m)))
     = {| region_config := Some conf; region_state := snd m |}
  /\ _cached_step (self (snd r)) = step conf
  /\ locks (world (snd r)) (_shm_lock (self (fst m))) = false.
Proof.
  intros Hstep Hlen Hfree Hi Hr.
  unfold collective_save in Hr. rewrite nth_error_map, Hi in Hr.
  injection Hr as <-.
  set (p := hear (map fst ranks) (fst m)).
  pose proof (members_from_nth _ ranks 0 i m Hstep Hi) as Hm.
  unfold reaches_collective in Hm. simpl in Hm.
  apply andb_true_iff in Hm as [Hm _].
  apply andb_true_iff in Hm as [Hwriter Hkey].
  apply Z.eqb_eq in Hwriter.
  destruct (snd m !! DLROVER_CKPT_CONFIG_KEY) eqn:Hk; [discriminate |].
  destruct (acquire_result (_shm_lock (self p)) (world p))
    as (w1 & Hacq & _ & _ & _ & Hp1 & _).
  destruct (agreement_everywhere ranks i m w1 Hstep Hlen Hfree Hi Hp1)
    as (w2 & Hcheck).
  destruct (save_commit_outcome p (snd m) conf _ w1 w2 Hwriter Hk Hacq Hcheck)
    as (Hres & Hself & Hreg & _).
  split; [exact Hres |]. split; [exact Hreg |].
  split; [now rewrite Hself |].
  assert (Hvote : locks (world (fst m)) (_shm_lock (self (fst m))) = false).
  { rewrite List.Forall_forall in Hfree.
    apply negb_true_iff. apply (Hfree m). eapply nth_error_In, Hi. }
  rewrite (save_locks p (snd m) conf). exact Hvote.
Qed.

End ClusterCommit.

(** ** More on the step check *)

(** With a group, the check passes exactly when the tensor of every other
    member equals the tensor of this member. *)
Lemma verify_agrees_with_own (g : ProcessGroup) (s : Z) (t : Float32)
    (w : World) :
  (pg_rank g < pg_size g)%nat ->
  tensor_of_step s = inr t ->
  fst (verify_all_rank_step_consistent (Some g) s w) = inr true
  <-> forall j, (j < pg_size g)%nat -> j <> pg_rank g -> peer_float32 w j = t.
Proof.
  intros Hrank Ht.
  destruct (verify_group_gathered g s t w Ht) as (b & Hrun & Hb).
  rewrite Hrun. simpl.
  pose proof (contributions_own g t (peer_float32 w) Hrank) as Hown.
  split.
  - intros [= ->]. intros j Hj Hne.
    destruct (contributions g t (peer_float32 w)) as [| first rest] eqn:E;
      [contradiction |].
    pose proof (proj1 Hb eq_refl first rest eq_refl) as Hall.
    rewrite List.Forall_forall in Hall.
    rewrite (Hall t Hown).
    apply Hall. rewrite <- E. unfold contributions. apply in_map_iff.
    exists j. split; [| apply in_seq; lia].
    destruct (Nat.eqb_spec j (pg_rank g)); [contradiction | reflexivity].
  - intros Hpeers. f_equal. apply Hb. intros first rest E.
    assert (Hall : Forall (fun x => x = t) (contributions g t (peer_float32 w))).
    { apply List.Forall_forall. intros x Hx. unfold contributions in Hx.
      apply in_map_iff in Hx as (j & <- & Hj). apply in_seq in Hj.
      destruct (Nat.eqb_spec j (pg_rank g)); [reflexivity |].
      apply Hpeers; [lia | assumption]. }
    rewrite E in Hall.
    assert (Hfirst : first = t) by (now inversion Hall).
    subst first. exact Hall.
Qed.

(** X13.  With a group, [verify_all_rank_step_consistent] returns true exactly
    when the float32 tensor of the step of every other member equals the
    tensor of the step of this member.  When every step is below 2^24 in
    magnitude that is: exactly when every other member holds the very
    step of this member. *)
Theorem verify_passes_iff (g : ProcessGroup) (s : Z) (w : World) :
  (pg_rank g < pg_size g)%nat ->
  (forall t,
      tensor_of_step s = inr t ->
      fst (verify_all_rank_step_consistent (Some g) s w) = inr true
      <-> forall j, (j < pg_size g)%nat -> j <> pg_rank g ->
                    peer_float32 w j = t)
  /\ (forall steps : nat -> Z,
        Z.abs s < 2 ^ 24 ->
        (forall j, Z.abs (steps j) < 2 ^ 24) ->
        (forall j, tensor_of_step (steps j) = inr (peer_float32 w j)) ->
        fst (verify_all_rank_step_consistent (Some g) s w) = inr true
        <-> forall j, (j < pg_size g)%nat -> j <> pg_rank g -> steps j = s).
Proof.
  intros Hrank. split.
  - intros t Ht. now apply verify_agrees_with_own.
  - intros steps Hs Hsteps Hpeers.
    rewrite (verify_agrees_with_own g s (Finite s) w Hrank
               (tensor_of_step_exact s Hs)).
    split; intros H j Hj Hne; specialize (H j Hj Hne);
      specialize (Hpeers j);
      rewrite (tensor_of_step_exact _ (Hsteps j)) in Hpeers;
      injection Hpeers as Hpeer; congruence.
Qed.

(** Rounding keeps a number at or above a power of two there. *)
Lemma round_half_even_large (p n k : Z) :
  0 < p -> 0 <= k -> 2 ^ k <= Z.abs n -> 2 ^ k <= Z.abs (round_half_even p n).
Proof.
  intros Hp Hk Hn. unfold round_half_even.
  set (a := Z.abs n) in *.
  assert (Ha : 0 < a) by (pose proof (Z.pow_pos_nonneg 2 k); lia).
  set (e := Z.log2 a + 1 - p).
  destruct (e <=? 0) eqn:He; [exact Hn |].
  apply Z.leb_gt in He.
  pose proof (Z.log2_spec a Ha) as [Hlow _].
  assert (Hkl : 2 ^ k <= 2 ^ Z.log2 a).
  { apply Z.pow_le_mono_r; [lia |]. now apply Z.log2_le_pow2. }
  rewrite Z.shiftr_div_pow2, Z.shiftl_mul_pow2 by lia.
  set (q := a / 2 ^ e).
  match goal with
  | |- context [if ?c then q + 1 else q] =>
      set (q' := if c then q + 1 else q);
      assert (Hq' : q <= q') by (unfold q'; destruct c; lia)
  end.
  assert (He' : 0 < 2 ^ e) by (apply Z.pow_pos_nonneg; lia).
  assert (Hsplit : 2 ^ Z.log2 a = 2 ^ (p - 1) * 2 ^ e).
  { rewrite <- Z.pow_add_r by lia. f_equal. unfold e. lia. }
  assert (Hq : 2 ^ (p - 1) <= q).
  { unfold q. apply Z.div_le_lower_bound; [exact He' |]. lia. }
  assert (Hres : 2 ^ k <= q' * 2 ^ e) by nia.
  assert (Hsgn : Z.abs (Z.sgn n) = 1)
    by (destruct n; [unfold a in Ha; simpl in Ha; lia | reflexivity ..]).
  rewrite Z.abs_mul, Hsgn, Z.mul_1_l, Z.abs_eq by nia.
  exact Hres.
Qed.

(** X14.  A step of magnitude 2^1024 or more is out of the range of a float:
    with a group the check raises [OverflowError] before any collective
    call, and so does [get_state_dict_from_memory] on a region that
    stages such a step; without a group the check passes. *)
Theorem step_out_of_float_range (s : Z) :
  2 ^ 1024 <= Z.abs s ->
  (forall g w,
      verify_all_rank_step_consistent (Some g) s w = (inl OverflowError, w))
  /\ (forall w, verify_all_rank_step_consistent None s w = (inr true, w))
  /\ (forall p g c,
        _saver_group (self p) = Some g ->
        region_config (regions (world p) (_shm_handler (self p))) = Some c ->
        step c = s ->
        fst (get_state_dict_from_memory p) = inl OverflowError).
Proof.
  intros Hs.
  assert (Hfloat : tensor_of_step s = inl OverflowError).
  { unfold tensor_of_step, py_float.
    pose proof (round_half_even_large 53 s 1024 ltac:(lia) ltac:(lia) Hs).
    destruct (Z.abs (round_half_even 53 s) <? 2 ^ 1024) eqn:E;
      [apply Z.ltb_lt in E; lia | reflexivity]. }
  assert (Hrun : forall g w,
            verify_all_rank_step_consistent (Some g) s w
            = (inl OverflowError, w)).
  { intros g w. unfold verify_all_rank_step_consistent, bind, of_result.
    now rewrite Hfloat. }
  split; [exact Hrun |]. split; [reflexivity |].
  intros p g c Hg Hc Hstep.
  unfold get_state_dict_from_memory, bind, get_self, on_world,
    SharedMemoryHandler_get_checkpoint_config. simpl.
  rewrite Hc, Hstep, Hg.
  destruct (Z.eqb_spec s 0) as [-> | _].
  - simpl in Hs. pose proof (Z.pow_pos_nonneg 2 1024). lia.
  - cbn [world self]. now rewrite Hrun.
Qed.

Section CachedStep.
Context `{names : CkptSaverNames}.

(** X6.  Once [_cached_step] is the step in the header of the region of the
    engine, it stays so through every call of [save_to_memory], written
    or skipped or refused. *)
Theorem cached_step_tracks_region (p : Process) (s : Z) (sd : StateDict)
    (dir : string) :
  _cached_step (self p) = stored_step (_shm_handler (self p)) (world p) ->
  let p' := snd (save_to_memory s sd dir p) in
  _cached_step (self p') = stored_step (_shm_handler (self p')) (world p').
Proof.
  intros Hinv p'. subst p'.
  destruct (save_to_memory_step p s sd dir)
    as [Hshard [(_ & _ & Hs & Hc) | (_ & Hreg & Hc)]]; rewrite Hshard.
  - now rewrite Hc, Hs.
  - rewrite Hc, Hinv. unfold stored_step. now rewrite Hreg.
Qed.

End CachedStep.

Lemma cached_step_tracks_region_witness :
  _cached_step (self process0)
  = stored_step (_shm_handler (self process0)) (world process0)
  /\ _cached_step
       (self (snd (@save_to_memory example_names 5 state_w "" process0)))
     = stored_step
         (_shm_handler
            (self (snd (@save_to_memory example_names 5 state_w "" process0))))
         (world (snd (@save_to_memory example_names 5 state_w "" process0))).
Proof.
  split; [reflexivity |].
  exact (@cached_step_tracks_region example_names process0 5 state_w ""
           eq_refl).
Defined.

(** ** The properties at concrete inputs *)

Lemma save_frame_witness :
  1 <> _shm_handler (self process0)
  /\ regions (world (snd (@save_state_dict_to_memory example_names
                            state_w conf5 process0))) 1
     = regions (world process0) 1.
Proof.
  assert (H : 1 <> _shm_handler (self process0)) by (simpl; lia).
  split; [exact H |].
  exact (proj1 (proj2 (@save_frame example_names process0 state_w conf5))
           1 H).
Defined.


Lemma save_then_load_witness :
  (_local_rank (self process0) = local_shard_id (self process0)
   /\ state_w !! @DLROVER_CKPT_CONFIG_KEY example_names = None
   /\ _saver_group (self process0) = None
   /\ locks (world process0) (_shm_lock (self process0)) = false)
  /\ fst (get_state_dict_from_memory
            (snd (@save_to_memory example_names 5 state_w "" process0)))
     = inr state_w.
Proof.
  assert (Hkey : state_w !! @DLROVER_CKPT_CONFIG_KEY example_names = None)
    by (vm_compute; reflexivity).
  split; [repeat split; try reflexivity; exact Hkey |].
  exact (proj2 (@save_then_load example_names process0 5 state_w ""
                  eq_refl Hkey eq_refl eq_refl)).
Defined.

Lemma init_outcome_witness :
  @get_local_shard_num impl_no_shard = 0
  /\ @__init__ example_names impl_no_shard env0 "/ckpt" world0
     = (inl ZeroDivisionError, world0)
  /\ (@get_local_shard_num example_impl <> 0
      /\ (default 0 (LOCAL_RANK env0) <> 0 \/ 0 = 0))
  /\ fst (@__init__ example_names example_impl env0 "/ckpt" world0)
     = inr (@constructed example_names example_impl env0 "/ckpt" world0).
Proof.
  assert (Hsome : @get_local_shard_num example_impl <> 0
                  /\ (default 0 (LOCAL_RANK env0) <> 0 \/ 0 = 0))
    by (split; [simpl; lia | right; reflexivity]).
  split; [reflexivity |]. split.
  - apply injective_projections.
    + exact (proj2 (proj1 (@init_outcome example_names impl_no_shard
                             env0 "/ckpt" world0)) eq_refl).
    + exact (proj1 (proj2 (@init_outcome example_names impl_no_shard
                             env0 "/ckpt" world0)) eq_refl).
  - split; [exact Hsome |].
    exact (proj2 (proj2 (proj2 (proj2
             (@init_outcome example_names example_impl env0 "/ckpt" world0))))
             Hsome).
Defined.

Lemma init_frame_witness :
  default 0 (LOCAL_RANK env_local_rank_1) <> 0
  /\ snd (@__init__ example_names example_impl env_local_rank_1 "/ckpt"
            (world_dist 1))
     = world_dist 1.
Proof.
  assert (H : default 0 (LOCAL_RANK env_local_rank_1) <> 0) by (simpl; lia).
  split; [exact H |].
  exact (proj2 (proj2 (@init_frame example_names example_impl
                         env_local_rank_1 "/ckpt" (world_dist 1))) H).
Defined.

Lemma init_shard_witness :
  (0 < @get_local_shard_num example_impl
   /\ fst (@__init__ example_names example_impl env0 "/ckpt" world0)
      = inr engine0)
  /\ 0 <= local_shard_id engine0 < @get_local_shard_num example_impl.
Proof.
  assert (H : 0 < @get_local_shard_num example_impl) by (simpl; lia).
  split; [split; [exact H | reflexivity] |].
  exact (proj1 (@init_shard example_names example_impl env0 "/ckpt" world0
                  engine0 H eq_refl)).
Defined.

Lemma init_queues_witness :
  (@get_local_shard_num example_impl <> 0
   /\ default 0 (LOCAL_RANK env0) = 0
   /\ (if dist_is_initialized world0 then dist_get_rank world0 else 0) = 0
   /\ @SAVE_STEP_QNAME example_names +:+ pretty 0 <> "factory")
  /\ queues (snd (@__init__ example_names example_impl env0 "/ckpt" world0))
       "factory"
     = [MsgClassMeta (@descriptor example_impl "/ckpt")].
Proof.
  assert (Hshards : @get_local_shard_num example_impl <> 0) by (simpl; lia).
  assert (Hnames : @SAVE_STEP_QNAME example_names +:+ pretty 0 <> "factory")
    by (vm_compute; discriminate).
  split; [repeat split; try reflexivity; assumption |].
  exact (proj1 (@init_queues example_names example_impl env0 "/ckpt" world0
                  Hshards eq_refl eq_refl Hnames)).
Defined.


Lemma collective_commit_witness :
  (@in_lock_step example_names cluster_free = true
   /\ Z.of_nat (length cluster_free) < 2 ^ 63
   /\ Forall (fun m => vote (fst m) = true) cluster_free)
  /\ regions (world (snd (@save_state_dict_to_memory example_names state_w
                            conf5 (hear (map fst cluster_free) rank1_free))))
       (_shm_handler (self rank1_free))
     = {| region_config := Some conf5; region_state := state_w |}.
Proof.
  assert (Hstep : @in_lock_step example_names cluster_free = true)
    by (vm_compute; reflexivity).
  assert (Hlen : Z.of_nat (length cluster_free) < 2 ^ 63)
    by (vm_compute; reflexivity).
  assert (Hfree : Forall (fun m => vote (fst m) = true) cluster_free)
    by (repeat constructor).
  split; [repeat split; assumption |].
  exact (proj1 (proj2
           (@collective_commit example_names cluster_free conf5 1%nat
              (rank1_free, state_w) _ Hstep Hlen Hfree eq_refl eq_refl))).
Defined.

Lemma verify_passes_iff_witness :
  ((pg_rank group2 < pg_size group2)%nat
   /\ Z.abs 5 < 2 ^ 24
   /\ (forall j : nat, Z.abs ((fun _ => 5) j) < 2 ^ 24)
   /\ (forall j : nat,
         tensor_of_step ((fun _ => 5) j) = inr (peer_float32 world_step_5 j)))
  /\ (fst (verify_all_rank_step_consistent (Some group2) 5 world_step_5)
      = inr true
      <-> forall j, (j < pg_size group2)%nat -> j <> pg_rank group2 ->
                    (fun _ : nat => 5) j = 5).
Proof.
  assert (Hrank : (pg_rank group2 < pg_size group2)%nat) by (simpl; lia).
  assert (H5 : Z.abs 5 < 2 ^ 24) by (vm_compute; reflexivity).
  split; [repeat split; try assumption; intros j; try exact H5; reflexivity |].
  exact (proj2 (verify_passes_iff group2 5 world_step_5 Hrank)
           (fun _ => 5) H5 (fun _ => H5) (fun _ => eq_refl)).
Defined.

Lemma step_out_of_float_range_witness :
  2 ^ 1024 <= Z.abs (2 ^ 1024)
  /\ verify_all_rank_step_consistent (Some group2) (2 ^ 1024) world_step_5
     = (inl OverflowError, world_step_5).
Proof.
  assert (H : 2 ^ 1024 <= Z.abs (2 ^ 1024))
    by (vm_compute; intros Hgt; discriminate Hgt).
  split; [exact H |].
  exact (proj1 (step_out_of_float_range (2 ^ 1024) H) group2 world_step_5).
Defined.

Lemma save_returned_keeps_locks_witness :
  fst (@save_state_dict_to_memory example_names state_w conf5 process_locked)
  = inr tt
  /\ locks (world (snd (@save_state_dict_to_memory example_names
                          state_w conf5 process_locked)))
       "shm_local_rank_0"
     = true
  /\ locks (world (snd (@save_state_dict_to_memory example_names
                          state_w conf5 process0)))
       "shm_local_rank_0"
     = false.
Proof.
  assert (Hheld : fst (@save_state_dict_to_memory example_names state_w conf5
                         process_locked) = inr tt) by reflexivity.
  assert (Hfree : fst (@save_state_dict_to_memory example_names state_w conf5
                         process0) = inr tt) by reflexivity.
  split; [exact Hheld |]. split.
  - exact (proj1 (@save_returned_keeps_locks example_names process_locked
                    state_w conf5 5 "") Hheld "shm_local_rank_0").
  - exact (proj1 (@save_returned_keeps_locks example_names process0
                    state_w conf5 5 "") Hfree "shm_local_rank_0").
Defined.
